(** * hb.py: HackerBox catalogue scraper and markdown table renderer

    A shallow embedding of [hb.py] (classes [HackerBoxes] and
    [MarkdownTable]) and the properties of it that the specification states.

    Python strings are modelled by [string]; a character is one of the 256
    code points U+0000..U+00FF, and the character classes below follow
    Python's [str] methods and the [re] module on that range.  Exceptions
    are values of [exn]; a call that may raise returns a [result]. *)

From Stdlib Require Import Bool List Arith Lia ZArith Ascii String.
From Stdlib Require Import DecimalString.
Import ListNotations.
Local Open Scope list_scope.
Local Open Scope string_scope.

(** ** Python strings *)

Module PyStr.

Definition code (c : ascii) : nat := nat_of_ascii c.

Definition between (lo hi : nat) (c : ascii) : bool :=
  (lo <=? code c)%nat && (code c <=? hi)%nat.

Definition is_digit (c : ascii) : bool := between 48 57 c.
Definition is_upper (c : ascii) : bool := between 65 90 c.
Definition is_lower (c : ascii) : bool := between 97 122 c.

(** The class [[a-zA-Z0-9]]. *)
Definition is_ascii_alnum (c : ascii) : bool :=
  is_lower c || is_upper c || is_digit c.

(** The class [[a-z0-9]]. *)
Definition is_lower_alnum (c : ascii) : bool := is_lower c || is_digit c.

(** [str.isspace] on one character, which is also the class [\s] of [re]
    and what [str.split()] and [str.strip()] treat as white space:
    TAB..CR, FS..US, space, NEL and the no-break space. *)
Definition isspace (c : ascii) : bool :=
  between 9 13 c || between 28 32 c || (code c =? 133)%nat || (code c =? 160)%nat.

(** [str.isalnum] on one character: letters, decimal digits and the other
    numeric characters of the range (superscripts and vulgar fractions). *)
Definition isalnum_char (c : ascii) : bool :=
  is_ascii_alnum c
  || (code c =? 170)%nat || (code c =? 181)%nat || (code c =? 186)%nat
  || between 178 179 c || (code c =? 185)%nat || between 188 190 c
  || between 192 214 c || between 216 246 c || between 248 255 c.

(** [str.lower] on one character. *)
Definition lower_char (c : ascii) : ascii :=
  if is_upper c || between 192 214 c || between 216 222 c
  then ascii_of_nat (code c + 32) else c.

Definition nl : string := String "010" "".
Definition dquote : string := String "034" "".
Definition backslash : ascii := "092"%char.
Definition hyphen : ascii := "-"%char.

Fixpoint smap (f : ascii -> ascii) (s : string) : string :=
  match s with
  | "" => ""
  | String c s' => String (f c) (smap f s')
  end.

Fixpoint sfilter (f : ascii -> bool) (s : string) : string :=
  match s with
  | "" => ""
  | String c s' => if f c then String c (sfilter f s') else sfilter f s'
  end.

Fixpoint sforall (f : ascii -> bool) (s : string) : bool :=
  match s with
  | "" => true
  | String c s' => f c && sforall f s'
  end.

Definition is_empty (s : string) : bool :=
  match s with "" => true | _ => false end.

(** [s.lower()] *)
Definition lower (s : string) : string := smap lower_char s.

(** [s.isalnum()]: at least one character, and all of them alphanumeric. *)
Definition isalnum (s : string) : bool :=
  negb (is_empty s) && sforall isalnum_char s.

(** [s[n:]] for a non-negative constant [n]. *)
Fixpoint slice_from (n : nat) (s : string) : string :=
  match n, s with
  | O, _ => s
  | S _, "" => ""
  | S k, String _ s' => slice_from k s'
  end.

(** [s] with the prefix [p] removed, when [s.startswith(p)]. *)
Fixpoint strip_prefix (p s : string) : option string :=
  match p, s with
  | "", _ => Some s
  | String _ _, "" => None
  | String a p', String b s' =>
      if Ascii.eqb a b then strip_prefix p' s' else None
  end.

(** The text before and after the first occurrence of [sep] in [s]. *)
Fixpoint find_first (sep s : string) : option (string * string) :=
  match strip_prefix sep s with
  | Some after => Some ("", after)
  | None =>
      match s with
      | "" => None
      | String c s' =>
          match find_first sep s' with
          | Some (before, after) => Some (String c before, after)
          | None => None
          end
      end
  end.

(** [sep in s] *)
Definition contains (sep s : string) : bool :=
  match find_first sep s with Some _ => true | None => false end.

(** [s.split(sep, 1)] for a non-empty [sep]. *)
Definition split1 (sep s : string) : list string :=
  match find_first sep s with
  | Some (before, after) => [before; after]
  | None => [s]
  end.

Fixpoint lstrip (s : string) : string :=
  match s with
  | "" => ""
  | String c s' => if isspace c then lstrip s' else s
  end.

Fixpoint rstrip (s : string) : string :=
  match s with
  | "" => ""
  | String c s' =>
      let r := rstrip s' in
      if isspace c && is_empty r then "" else String c r
  end.

(** [s.strip()] *)
Definition strip (s : string) : string := rstrip (lstrip s).

(** [s.split()]: the maximal runs of characters that are not white space.
    [word] is the run being read. *)
Fixpoint split_ws_from (word s : string) : list string :=
  match s with
  | "" => if is_empty word then [] else [word]
  | String c s' =>
      if isspace c
      then (if is_empty word then split_ws_from "" s'
            else word :: split_ws_from "" s')
      else split_ws_from (word ++ String c "") s'
  end.

Definition split_ws (s : string) : list string := split_ws_from "" s.

(** [sep.join(l)] *)
Fixpoint join (sep : string) (l : list string) : string :=
  match l with
  | [] => ""
  | [x] => x
  | x :: l' => x ++ sep ++ join sep l'
  end.

(** ['-' * n] *)
Fixpoint dashes (n : nat) : string :=
  match n with
  | O => ""
  | S k => String hyphen (dashes k)
  end.

(** [str(i)] for a non-negative integer. *)
Definition str_of_nat (i : nat) : string :=
  NilEmpty.string_of_uint (Nat.to_uint i).

End PyStr.

(** ** The fragment of [re] that the program's patterns use *)

Module Re.
Import PyStr.

Inductive atom : Type :=
| Lit (s : string)                                      (* literal text *)
| One (cls : ascii -> bool)                             (* one character of a class *)
| Opt (c : ascii)                                       (* [c?] *)
| Rep (greedy : bool) (least : nat) (cls : ascii -> bool) (* [cls+], [cls*?], [cls+?] *)
| GroupOpen                                             (* [(] *)
| GroupClose.                                           (* [)] *)

Definition regex : Type := list atom.

(** The result of a match: the text left after it and the text that was
    left when the group opened and when it closed. *)
Definition matched : Type := (string * string * string)%type.

(** Backtracking match of [p] at the start of [s], trying the alternatives
    in the order of [re]: a greedy repetition takes more before less, a
    lazy one less before more, an optional character is taken first. *)
Fixpoint match_here (p : regex) (s g_open g_close : string) {struct p}
  : option matched :=
  match p with
  | [] => Some (s, g_open, g_close)
  | Lit l :: p' =>
      match strip_prefix l s with
      | Some s' => match_here p' s' g_open g_close
      | None => None
      end
  | One cls :: p' =>
      match s with
      | String d s' => if cls d then match_here p' s' g_open g_close else None
      | "" => None
      end
  | Opt c :: p' =>
      match s with
      | String d s' =>
          if Ascii.eqb c d
          then match match_here p' s' g_open g_close with
               | Some r => Some r
               | None => match_here p' s g_open g_close
               end
          else match_here p' s g_open g_close
      | "" => match_here p' s g_open g_close
      end
  | Rep greedy least cls :: p' =>
      (fix rep (s : string) (least : nat) {struct s} : option matched :=
         match s with
         | String d s' =>
             if greedy
             then match (if cls d then rep s' (pred least) else None) with
                  | Some r => Some r
                  | None =>
                      match least with
                      | O => match_here p' s g_open g_close
                      | S _ => None
                      end
                  end
             else match (match least with
                         | O => match_here p' s g_open g_close
                         | S _ => None
                         end) with
                  | Some r => Some r
                  | None => if cls d then rep s' (pred least) else None
                  end
         | "" =>
             match least with
             | O => match_here p' s g_open g_close
             | S _ => None
             end
         end) s least
  | GroupOpen :: p' => match_here p' s s g_close
  | GroupClose :: p' => match_here p' s g_open s
  end.

(** The text between the two positions at which [g_open] and [g_close]
    were what was left of the subject. *)
Definition group_text (g_open g_close : string) : string :=
  substring 0 (String.length g_open - String.length g_close) g_open.

(** [re.search(p, s)]: the group of the match at the leftmost position
    that has one. *)
Fixpoint search (p : regex) (s : string) : option string :=
  match match_here p s "" "" with
  | Some (_, g_open, g_close) => Some (group_text g_open g_close)
  | None =>
      match s with
      | "" => None
      | String _ s' => search p s'
      end
  end.

(** [re.findall(p, s)] for a pattern with one group: the groups of the
    successive matches, each search starting where the previous match
    ended.  [skip] counts the characters of the previous match that are
    still to be passed.  (Every pattern of the program contains literal
    text, so no match is empty.) *)
Fixpoint findall_from (p : regex) (skip : nat) (s : string) : list string :=
  match skip, s with
  | S k, String _ s' => findall_from p k s'
  | S _, "" => []
  | O, _ =>
      match match_here p s "" "" with
      | Some (r, g_open, g_close) =>
          group_text g_open g_close ::
            match s with
            | String _ s' =>
                findall_from p (String.length s - String.length r - 1) s'
            | "" => []
            end
      | None =>
          match s with
          | String _ s' => findall_from p 0 s'
          | "" => []
          end
      end
  end.

Definition findall (p : regex) (s : string) : list string :=
  findall_from p 0 s.

Definition any_char (c : ascii) : bool := true.          (* [.] with DOTALL *)
Definition not_newline (c : ascii) : bool := negb (code c =? 10)%nat. (* [.] *)

End Re.

(** ** Python values, exceptions and results *)

(** The values that [json.loads] produces and that the program builds. *)
#[local] Unset Elimination Schemes.
Inductive value : Type :=
| VNone
| VBool (b : bool)
| VInt (z : Z)
| VStr (s : string)
| VList (l : list value)
| VDict (d : list (string * value)).
#[local] Set Elimination Schemes.

(** A [dict] with string keys, in insertion order. *)
Definition dict : Type := list (string * value).

(** The exception classes the program can meet.  [HTTPError] is what
    [raise_for_status] raises, [RequestException] any other failure of a
    request; [AssertionError] carries the message of the [assert]. *)
Inductive exn : Type :=
| HTTPError
| RequestException
| AssertionError (msg : option string)
| ValueError
| KeyError
| IndexError
| TypeError
| AttributeError.

Inductive result (A : Type) : Type :=
| Ok (a : A)
| Raise (e : exn).

Arguments Ok {A} a.
Arguments Raise {A} e.

Definition bind {A B : Type} (r : result A) (k : A -> result B) : result B :=
  match r with
  | Ok a => k a
  | Raise e => Raise e
  end.

Notation "x <- r ;; k" := (bind r (fun x => k))
  (at level 61, r at next level, right associativity).

Module Py.
Import PyStr.

Fixpoint lookup {A : Type} (k : string) (d : list (string * A)) : option A :=
  match d with
  | [] => None
  | (k', v) :: d' => if String.eqb k k' then Some v else lookup k d'
  end.

(** [k in d] *)
Definition has_key (k : string) (d : dict) : bool :=
  match lookup k d with Some _ => true | None => false end.

(** The truth value of [v], as [assert v] tests it. *)
Definition truthy (v : value) : bool :=
  match v with
  | VNone => false
  | VBool b => b
  | VInt z => negb (Z.eqb z 0)
  | VStr s => negb (is_empty s)
  | VList l => match l with [] => false | _ => true end
  | VDict d => match d with [] => false | _ => true end
  end.

(** [v[k]] for a string [k]. *)
Definition getitem_key (v : value) (k : string) : result value :=
  match v with
  | VDict d => match lookup k d with Some x => Ok x | None => Raise KeyError end
  | _ => Raise TypeError
  end.

Fixpoint char_at (n : nat) (s : string) : option ascii :=
  match s, n with
  | "", _ => None
  | String c _, O => Some c
  | String _ s', S k => char_at k s'
  end.

(** [v[n]] for a non-negative integer [n]. *)
Definition getitem_int (v : value) (n : nat) : result value :=
  match v with
  | VList l => match nth_error l n with Some x => Ok x | None => Raise IndexError end
  | VStr s => match char_at n s with Some c => Ok (VStr (String c "")) | None => Raise IndexError end
  | VDict _ => Raise KeyError
  | _ => Raise TypeError
  end.

(** [v[n:]]: strings and lists can be sliced. *)
Definition getslice_from (v : value) (n : nat) : result value :=
  match v with
  | VStr s => Ok (VStr (slice_from n s))
  | VList l => Ok (VList (skipn n l))
  | _ => Raise TypeError
  end.

Fixpoint chars (s : string) : list value :=
  match s with
  | "" => []
  | String c s' => VStr (String c "") :: chars s'
  end.

(** The items that [for x in v] visits. *)
Definition iterate (v : value) : result (list value) :=
  match v with
  | VList l => Ok l
  | VStr s => Ok (chars s)
  | VDict d => Ok (map (fun kv => VStr (fst kv)) d)
  | _ => Raise TypeError
  end.

End Py.

(** ** What the program is run against

    The web, the JSON codec, [repr] and [pathlib] are libraries outside
    the repository; the development is parametric in them.  The answer to
    a request depends on its address only, and writing a file succeeds. *)

Record response : Type := {
  status_code : Z;
  text : string;          (* the body decoded as text *)
  content : string        (* the body as bytes *)
}.

Class Runtime : Type := {
  session_get : string -> result response;   (* [self.session.get(url)] *)
  requests_get : string -> result response;  (* [requests.get(url)] *)
  json_loads : string -> result value;       (* [json.loads(s)] *)
  json_dumps : value -> string;              (* [json.dumps(v, indent=2)] *)
  py_repr : value -> string;                 (* [repr(v)] *)
  path : Type;                               (* [pathlib.Path] *)
  ASSETS : path;                             (* [Path(__file__).parent / 'assets'] *)
  path_div : path -> string -> path;         (* [p / name] *)
  path_name : path -> string;                (* [p.name] *)
  path_str : path -> string                  (* [str(p)] *)
}.

(** [response.raise_for_status()] *)
Definition raise_for_status (r : response) : result unit :=
  if ((400 <=? status_code r) && (status_code r <? 600))%Z
  then Raise HTTPError else Ok tt.

(** What the program changes: the files it has written, latest first, and
    the lines it has printed, latest first. *)
Record world {R : Runtime} : Type := {
  files : list (path * string);
  stdout : list string
}.

Definition write_bytes {R : Runtime} (p : path) (data : string) (w : world) : world :=
  {| files := (p, data) :: files w; stdout := stdout w |}.

Definition print {R : Runtime} (line : string) (w : world) : world :=
  {| files := files w; stdout := line :: stdout w |}.

(** [f'{v}']: a string is inserted as it is, another value by its [repr]. *)
Definition format_value {R : Runtime} (v : value) : string :=
  match v with
  | VStr s => s
  | _ => py_repr v
  end.

(** ** class HackerBoxes *)

Module HackerBoxes.
Import PyStr Re Py.

(** inconsistencies in naming *)
Definition NAME_EXCEPTIONS : list (string * string) :=
  [ ("hackerbox-0095-ai-camera-lab", "hackerbox-0095-ai-camera");
    ("hackerbox-0050-fifty", "hackerbox-0050");
    ("hackerbox-0039-level-up", "hackerbox-0039-power-up");
    ("hackerbox-0022-bbc-microbit", "hackerbox-0022-bbc-micro-bit") ].

(** [self.url] *)
Definition url : string :=
  "https://hackerboxes.com/collections/past-hackerboxes".

(** The pattern [var meta = (?P<products>{QproductsQ:.+?});\n], where Q
    stands for the double quote, compiled with DOTALL. *)
Definition products_re : regex :=
  [ Lit "var meta = ";
    GroupOpen;
    Lit ("{" ++ dquote ++ "products" ++ dquote ++ ":");
    Rep false 1 any_char;
    Lit "}";
    GroupClose;
    Lit (";" ++ nl) ].

(** The pattern
    [ProductJson-product-templateQ>\s+(?P<product>{.+?})\n\s+</script>\s],
    where Q stands for the double quote, compiled with DOTALL. *)
Definition product_re : regex :=
  [ Lit ("ProductJson-product-template" ++ dquote ++ ">");
    Rep true 1 isspace;
    GroupOpen;
    Lit "{";
    Rep false 1 any_char;
    Lit "}";
    GroupClose;
    Lit nl;
    Rep true 1 isspace;
    Lit "</script>";
    One isspace ].

(** The pattern [\n<li.*?>(.+?)<\\?/li>\n]. *)
Definition li_re : regex :=
  [ Lit (nl ++ "<li");
    Rep false 0 not_newline;
    Lit ">";
    GroupOpen;
    Rep false 1 not_newline;
    GroupClose;
    Lit "<";
    Opt backslash;
    Lit ("/li>" ++ nl) ].

(** The class [[a-zA-Z0-9\s-]], whose complement [re.sub] deletes. *)
Definition slug_char (c : ascii) : bool :=
  is_ascii_alnum c || isspace c || Ascii.eqb c hyphen.

(** The body of the loop of [parse_box_names] from the display name
    [label] of the product's first variant on: the canonical name of the
    box. *)
Definition normalize_name (label : string) : result string :=
  let raw_product := slice_from 11 label in   (* len(HackerBox #) = 11 *)
  match split1 " - " raw_product with
  | [number; raw_name] =>
      let number := strip number in
      let raw_name :=
        if contains " - " raw_name
        then hd raw_name (split1 " - " raw_name)
        else raw_name in
      let raw_name :=
        if negb (isalnum raw_name)
        then sfilter slug_char raw_name
        else raw_name in
      let name := lower (join "-" (split_ws raw_name)) in
      let full_name := "hackerbox-" ++ number ++ "-" ++ name in
      match lookup full_name NAME_EXCEPTIONS with
      | Some mapped => Ok mapped
      | None => Ok full_name
      end
  | _ => Raise ValueError   (* the two names cannot be unpacked *)
  end.

(** One turn of the loop of [parse_box_names]:
    [product['variants'][0]['name'][11:]] and what follows. *)
Definition box_name (product : value) : result string :=
  variants <- getitem_key product "variants" ;;
  variant <- getitem_int variants 0 ;;
  label <- getitem_key variant "name" ;;
  match label with
  | VStr s => normalize_name s
  | VList _ => Raise AttributeError   (* a slice of a list has no [split] *)
  | _ => Raise TypeError              (* the value cannot be sliced *)
  end.

(** The loop of [parse_box_names]: the names in order, up to the first
    product that raises. *)
Fixpoint box_names (products : list value) : result (list string) :=
  match products with
  | [] => Ok []
  | product :: rest =>
      full_name <- box_name product ;;
      names <- box_names rest ;;
      Ok (full_name :: names)
  end.

Section WithRuntime.
Context {R : Runtime}.

(** Parse only the relevant details of a box. *)
Definition parse_box_names (url : string) : result (list string) :=
  response <- session_get url ;;
  _ <- raise_for_status response ;;
  match search products_re (text response) with
  | Some g =>
      if is_empty g
      then Raise (AssertionError (Some ("no products found for: " ++ url ++ "!")))
      else
        meta <- json_loads g ;;
        products <- getitem_key meta "products" ;;
        if truthy products
        then items <- iterate products ;; box_names items
        else Raise (AssertionError None)
  | None => Raise (AssertionError (Some ("no products found for: " ++ url ++ "!")))
  end.

(** The address of listing page [i]: [f'{self.url}?page={i}']. *)
Definition page_url (i : nat) : string := url ++ "?page=" ++ str_of_nat i.

(** The [while True] loop of [get_all_boxes], for at most [fuel] turns:
    [None] when the pages have not ended by then. *)
Fixpoint get_all_boxes_loop (fuel i : nat) (boxes : list string)
  : option (result (list string)) :=
  match fuel with
  | O => None
  | S fuel' =>
      match parse_box_names (page_url i) with
      | Ok names => get_all_boxes_loop fuel' (S i) (boxes ++ names)%list
      | Raise HTTPError => Some (Ok boxes)
      | Raise (AssertionError _) => Some (Ok boxes)
      | Raise e => Some (Raise e)
      end
  end.

(** Retrieve all released boxes. *)
Definition get_all_boxes (fuel : nat) : option (result (list string)) :=
  match parse_box_names url with
  | Ok boxes => get_all_boxes_loop fuel 2 boxes
  | Raise e => Some (Raise e)
  end.

(** Get the picture and contents of a box for a table and for json dump. *)
Definition get_box_contents (name : string) (w : world)
  : result (dict * dict) * world :=
  let box_url := url ++ "/products/" ++ name in
  match session_get box_url with
  | Raise e => (Raise e, w)
  | Ok response =>
  let no_json :=
    AssertionError (Some ("no contents json found for: " ++ name ++ "!")) in
  match search product_re (text response) with
  | None => (Raise no_json, w)
  | Some g =>
  if is_empty g then (Raise no_json, w) else
  match json_loads g with
  | Raise e => (Raise e, w)
  | Ok product =>
  match getitem_key product "description" with
  | Raise e => (Raise e, w)
  | Ok description =>
  if negb (truthy description) then (Raise (AssertionError None), w) else
  match description with
  | VStr d =>
      let contents := findall li_re d in
      match (f <- getitem_key product "featured_image" ;; getslice_from f 2) with
      | Raise e => (Raise e, w)
      | Ok image_url =>
      match requests_get ("https://" ++ format_value image_url) with
      | Raise e => (Raise e, w)
      | Ok image_response =>
          let image := content image_response in
          let image_path := path_div ASSETS (name ++ ".png") in
          let w := write_bytes image_path image w in
          let w := print ("File written to: " ++ path_str image_path) w in
          (* <ul><li>Sub-item 1</li><li>Sub-item 2</li></ul> *)
          let bullets := map (fun b => "<li>" ++ b ++ "</li>") contents in
          let table_contents := "<ul>" ++ join "" bullets ++ "</ul>" in
          let table_name := "[" ++ name ++ "](" ++ box_url ++ ")" in
          let picture :=
            "![" ++ name ++ "](assets/" ++ path_name image_path ++ ")" in
          let table_data :=
            [ ("name", VStr table_name);
              ("picture", VStr picture);
              ("contents", VStr table_contents) ] in
          let json_data :=
            [ ("name", VStr name);
              ("picture", VStr picture);
              ("contents", VList (map VStr contents)) ] in
          (Ok (table_data, json_data), w)
      end
      end
  | _ => (Raise TypeError, w)   (* [re.findall] expects a string *)
  end
  end
  end
  end
  end.

(** The loop of [get_all_box_contents]. *)
Fixpoint box_contents_loop (names : list string)
    (table_contents json_contents : list dict) (w : world)
  : result (list dict * list dict) * world :=
  match names with
  | [] => (Ok (table_contents, json_contents), w)
  | name :: rest =>
      match get_box_contents name w with
      | (Ok (t, j), w') =>
          box_contents_loop rest (table_contents ++ [t])%list
            (json_contents ++ [j])%list w'
      | (Raise e, w') => (Raise e, w')
      end
  end.

(** Get contents for all boxes. *)
Definition get_all_box_contents (fuel : nat) (w : world)
  : option (result (list dict * list dict) * world) :=
  match get_all_boxes fuel with
  | None => None
  | Some (Raise e) => Some (Raise e, w)
  | Some (Ok names) => Some (box_contents_loop names [] [] w)
  end.

End WithRuntime.
End HackerBoxes.

(** ** class MarkdownTable *)

Module MarkdownTable.
Import PyStr Py.

(** An instance: [self.headers] and [self.rows]. *)
Record t : Type := {
  headers : list string;
  rows : list dict
}.

(** [all(h in row for h in headers)] *)
Definition has_all_headers (headers : list string) (row : dict) : bool :=
  forallb (fun h => has_key h row) headers.

Section WithRuntime.
Context {R : Runtime}.

(** The loop of [__init__]: the first row that lacks a header fails the
    assertion, with the message [f'Missing header for: {row}']. *)
Fixpoint check_rows (headers : list string) (rows : list dict) : result unit :=
  match rows with
  | [] => Ok tt
  | row :: rest =>
      if has_all_headers headers row
      then check_rows headers rest
      else Raise (AssertionError
                    (Some ("Missing header for: " ++ format_value (VDict row))))
  end.

(** [MarkdownTable(headers, rows)] *)
Definition init (headers : list string) (rows : list dict) : result t :=
  _ <- check_rows headers rows ;;
  Ok {| headers := headers; rows := rows |}.

End WithRuntime.

(** Setup headers. *)
Definition make_headers (self : t) : string :=
  let header := "| " ++ strip (join " | " (headers self)) ++ " |" ++ nl in
  let column_lengths := map (fun h => String.length h + 2) (headers self) in
  header ++ "| " ++ join " | " (map dashes column_lengths) ++ " |" ++ nl.

(** [[row[h] for h in self.headers]] *)
Fixpoint row_cells (headers : list string) (row : dict) : result (list value) :=
  match headers with
  | [] => Ok []
  | h :: rest =>
      v <- getitem_key (VDict row) h ;;
      vs <- row_cells rest row ;;
      Ok (v :: vs)
  end.

(** [[[row[h] for h in self.headers] for row in self.rows]] *)
Fixpoint all_cells (headers : list string) (rows : list dict)
  : result (list (list value)) :=
  match rows with
  | [] => Ok []
  | row :: rest =>
      cells <- row_cells headers row ;;
      others <- all_cells headers rest ;;
      Ok (cells :: others)
  end.

(** The strings of a row, as [str.join] requires them. *)
Fixpoint strings (cells : list value) : result (list string) :=
  match cells with
  | [] => Ok []
  | VStr s :: rest => ss <- strings rest ;; Ok (s :: ss)
  | _ :: _ => Raise TypeError
  end.

(** The loop of [make_rows]. *)
Fixpoint rows_text (all_rows : string) (rows : list (list value)) : result string :=
  match rows with
  | [] => Ok all_rows
  | row :: rest =>
      cells <- strings row ;;
      rows_text (all_rows ++ "| " ++ join " | " cells ++ " |" ++ nl) rest
  end.

(** Create rows. *)
Definition make_rows (self : t) : result string :=
  rows <- all_cells (headers self) (rows self) ;;
  rows_text "" rows.

(** Generate the table. *)
Definition generate (self : t) : result string :=
  let generated := make_headers self in
  more <- make_rows self ;;
  Ok (generated ++ more).

End MarkdownTable.

(** ** The entry point *)

Section Main.
Context {R : Runtime}.

(** The block under [if __name__ == '__main__'], with at most [fuel] turns
    of the pagination loop. *)
Definition main (fuel : nat) (w : world) : option (result unit * world) :=
  match HackerBoxes.get_all_box_contents fuel w with
  | None => None
  | Some (Raise e, w) => Some (Raise e, w)
  | Some (Ok (contents_t, contents_d), w) =>
      match MarkdownTable.init ["name"; "picture"; "contents"] contents_t with
      | Raise e => Some (Raise e, w)
      | Ok table =>
          match MarkdownTable.generate table with
          | Raise e => Some (Raise e, w)
          | Ok generated =>
              let w := print generated w in
              let w := print (json_dumps (VList (map VDict contents_d))) w in
              Some (Ok tt, w)
          end
      end
  end.

End Main.

(** ** A small store front to run the program against

    Three listing pages, the third of which answers 404, and three detail
    pages.  The JSON decoder is a table of the documents of these pages;
    [repr] is rendered without escapes, which is exact for the values
    used here. *)

Module Demo.
Import PyStr Py.

Definition q (s : string) : string := dquote ++ s ++ dquote.

Definition variant_json (label : string) : string :=
  "{" ++ q "variants" ++ ":[{" ++ q "name" ++ ":" ++ q label ++ "}]}".

Definition meta_json (labels : list string) : string :=
  "{" ++ q "products" ++ ":[" ++ join "," (map variant_json labels) ++ "]}".

Definition variant_value (label : string) : value :=
  VDict [("variants", VList [VDict [("name", VStr label)]])].

Definition meta_value (labels : list string) : value :=
  VDict [("products", VList (map variant_value labels))].

Definition page (status : Z) (body : string) : response :=
  {| status_code := status; text := body; content := body |}.

Definition listing_page (labels : list string) : response :=
  page 200 ("<html><script>" ++ nl ++ "var meta = " ++ meta_json labels ++ ";"
            ++ nl ++ "</script></html>" ++ nl).

Definition product_json (description image : string) : string :=
  "{" ++ q "description" ++ ":" ++ q description ++ ","
      ++ q "featured_image" ++ ":" ++ q image ++ "}".

Definition product_value (description image : string) : value :=
  VDict [("description", VStr description); ("featured_image", VStr image)].

Definition detail_page (json : string) : response :=
  page 200 ("<script type=" ++ q "application/json"
            ++ " id=" ++ q "ProductJson-product-template" ++ ">" ++ nl
            ++ "    " ++ json ++ nl ++ "  </script>" ++ nl).

Definition labels_1 : list string :=
  [ "HackerBox #0095 - AI Camera Lab - Build a Vision System";
    "HackerBox #0041 - Circuit Breaker" ].

Definition labels_2 : list string := [ "HackerBox #0010 - Inventor's Kit" ].

(** Two items, each on a line of its own between empty lines. *)
Definition json_0095 : string :=
  product_json "<ul>\n<li>Solder<\/li>\n\n<li>Flux<\/li>\n<\/ul>"
               "//cdn.example.com/0095.png".
Definition description_0095 : string :=
  "<ul>" ++ nl ++ "<li>Solder</li>" ++ nl ++ nl ++ "<li>Flux</li>" ++ nl ++ "</ul>".

(** Two items, one per line. *)
Definition json_0041 : string :=
  product_json "<ul>\n<li>ESP32 board<\/li>\n<li>USB cable<\/li>\n<\/ul>"
               "//cdn.example.com/0041.png".
Definition description_0041 : string :=
  "<ul>" ++ nl ++ "<li>ESP32 board</li>" ++ nl ++ "<li>USB cable</li>" ++ nl ++ "</ul>".

(** Two items on one line. *)
Definition json_0010 : string :=
  product_json "<ul>\n<li>Solder<\/li><li>Flux<\/li>\n<\/ul>"
               "//cdn.example.com/0010.png".
Definition description_0010 : string :=
  "<ul>" ++ nl ++ "<li>Solder</li><li>Flux</li>" ++ nl ++ "</ul>".

Definition web : list (string * response) :=
  [ (HackerBoxes.url, listing_page labels_1);
    (HackerBoxes.page_url 2, listing_page labels_2);
    (HackerBoxes.page_url 3, page 404 "Not Found");
    (HackerBoxes.url ++ "/products/hackerbox-0095-ai-camera", detail_page json_0095);
    (HackerBoxes.url ++ "/products/hackerbox-0041-circuit-breaker", detail_page json_0041);
    (HackerBoxes.url ++ "/products/hackerbox-0010-inventors-kit", detail_page json_0010);
    ("https://cdn.example.com/0095.png", page 200 "PNG-0095");
    ("https://cdn.example.com/0041.png", page 404 "Not Found");
    ("https://cdn.example.com/0010.png", page 200 "PNG-0010") ].




Definition documents : list (string * value) :=
  [ (meta_json labels_1, meta_value labels_1);
    (meta_json labels_2, meta_value labels_2);
    (meta_json [], meta_value []);
    (json_0095, product_value description_0095 "//cdn.example.com/0095.png");
    (json_0041, product_value description_0041 "//cdn.example.com/0041.png");
    (json_0010, product_value description_0010 "//cdn.example.com/0010.png") ].

(** A request to an address that is not in [pages] fails to connect. *)
Definition get (pages : list (string * response)) (address : string)
  : result response :=
  match lookup address pages with
  | Some r => Ok r
  | None => Raise RequestException
  end.

Definition loads (s : string) : result value :=
  match lookup s documents with
  | Some v => Ok v
  | None => Raise ValueError
  end.

Fixpoint repr (v : value) : string :=
  match v with
  | VNone => "None"
  | VBool true => "True"
  | VBool false => "False"
  | VInt z => NilEmpty.string_of_int (Z.to_int z)
  | VStr s => "'" ++ s ++ "'"
  | VList l => "[" ++ join ", " (map repr l) ++ "]"
  | VDict d =>
      "{" ++ join ", " (map (fun kv => match kv with
                                      | (k, x) => "'" ++ k ++ "': " ++ repr x
                                      end) d) ++ "}"
  end.

(** The text after the last [/]. *)
Fixpoint basename (s : string) : string :=
  match s with
  | "" => ""
  | String c s' => if contains "/" s then basename s' else s
  end.

Definition runtime_of (pages : list (string * response)) : Runtime := {|
  session_get := get pages;
  requests_get := get pages;
  json_loads := loads;
  json_dumps := repr;
  py_repr := repr;
  path := string;
  ASSETS := "/srv/hb/assets";
  path_div := fun p name => p ++ "/" ++ name;
  path_name := basename;
  path_str := fun p => p
|}.

Definition runtime : Runtime := runtime_of web.

Definition empty_world : @world runtime := {| files := []; stdout := [] |}.

(** The call for one box in the world where nothing has been written, and
    what it returns. *)
Definition run (name : string) : result (dict * dict) * @world runtime :=
  @HackerBoxes.get_box_contents runtime name empty_world.

Definition table_row (name : string) : dict :=
  match fst (run name) with Ok (t, _) => t | Raise _ => [] end.

Definition json_row (name : string) : dict :=
  match fst (run name) with Ok (_, j) => j | Raise _ => [] end.

Definition world_after (name : string) : @world runtime := snd (run name).

End Demo.

(** ** The notions the specification speaks in *)

Module Spec.
Import PyStr Re Py.

(** [sep] occurs somewhere in [s]. *)
Definition occurs (sep s : string) : Prop :=
  exists before after, s = before ++ sep ++ after.







(** [f'<li>{b}</li>'] *)
Definition li (b : string) : string := "<li>" ++ b ++ "</li>".

(** Reading a [<ul>] back: after the opening tag, items [<li>...</li>],
    each ending at the first [</li>], up to the closing tag. *)
Fixpoint unwrap_items (fuel : nat) (s : string) : option (list string) :=
  match fuel with
  | O => None
  | S fuel' =>
      if String.eqb s "</ul>" then Some []
      else
        match strip_prefix "<li>" s with
        | None => None
        | Some s' =>
            match find_first "</li>" s' with
            | None => None
            | Some (item, rest) =>
                match unwrap_items fuel' rest with
                | Some items => Some (item :: items)
                | None => None
                end
            end
        end
  end.

Definition strip_wrapping (s : string) : option (list string) :=
  match strip_prefix "<ul>" s with
  | Some s' => unwrap_items (S (String.length s')) s'
  | None => None
  end.

(** One [<li>] element on a line of its own: the newline before it, the
    opening tag with its attributes, the text, one of the two closing
    tags, and the newline after it. *)
Record li_line : Type := {
  attributes : string;
  inner : string;
  escaped : bool;       (* closed by [<\/li>] rather than [</li>] *)
  after : string        (* what follows the line, up to the next element *)
}.

Definition closing (escaped : bool) : string :=
  if escaped then String "<" (String backslash "/li>") else "</li>".

Definition li_text (l : li_line) : string :=
  nl ++ "<li" ++ attributes l ++ ">" ++ inner l ++ closing (escaped l) ++ nl.

Definition no_newline (s : string) : bool := sforall not_newline s.

Definition well_formed_line (l : li_line) : bool :=
  no_newline (attributes l)
  && sforall (fun c => negb (Ascii.eqb c ">")) (attributes l)
  && negb (is_empty (inner l))
  && no_newline (inner l)
  && negb (contains (nl ++ "<li") (after l)).

(** One item of a list written one item per line: the element and the
    newline that ends its line. *)
Definition item_line (t : string) : string := "<li>" ++ t ++ "</li>" ++ nl.

Fixpoint item_lines (ts : list string) : string :=
  match ts with
  | [] => ""
  | t :: ts' => item_line t ++ item_lines ts'
  end.

(** The first, the third, the fifth ... of a list. *)
Fixpoint every_other (ts : list string) : list string :=
  match ts with
  | [] => []
  | t :: rest =>
      t :: match rest with
           | [] => []
           | _ :: rest' => every_other rest'
           end
  end.

Section WithRuntime.
Context {R : Runtime}.

(** The request for [u] is answered with a status that
    [raise_for_status] rejects. *)
Definition fetch_raises_http (u : string) : Prop :=
  exists r, session_get u = Ok r /\ raise_for_status r = Raise HTTPError.

(** The ways a listing page ends the pagination, with the exception that
    [parse_box_names] raises in each: an HTTP failure, no metadata block,
    an empty product list. *)
Inductive listing_ends (u : string) : exn -> Prop :=
| http_failure :
    fetch_raises_http u -> listing_ends u HTTPError
| no_products_found r :
    session_get u = Ok r -> raise_for_status r = Ok tt ->
    search HackerBoxes.products_re (text r) = None ->
    listing_ends u (AssertionError (Some ("no products found for: " ++ u ++ "!")))
| empty_product_list r g meta products :
    session_get u = Ok r -> raise_for_status r = Ok tt ->
    search HackerBoxes.products_re (text r) = Some g ->
    is_empty g = false ->
    json_loads g = Ok meta ->
    getitem_key meta "products" = Ok products ->
    truthy products = false ->
    listing_ends u (AssertionError None).

End WithRuntime.

(** [MarkdownTable(headers, rows).generate()], as the entry point
    evaluates it. *)
Definition render {R : Runtime} (headers : list string) (rows : list dict)
  : result string :=
  table <- MarkdownTable.init headers rows ;;
  MarkdownTable.generate table.

End Spec.

(** ** Further notions *)

Module Notions.
Import PyStr Py.

(** The exceptions that the [except] clause of [get_all_boxes] names. *)
Definition caught (e : exn) : bool :=
  match e with
  | HTTPError => true
  | AssertionError _ => true
  | _ => false
  end.

(** The class [[a-z0-9-]]. *)
Definition slug_letter (c : ascii) : bool :=
  is_lower_alnum c || Ascii.eqb c hyphen.

(** The class [[a-zA-Z0-9-]]. *)
Definition title_letter (c : ascii) : bool :=
  is_ascii_alnum c || Ascii.eqb c hyphen.

(** [full_name] after the lookup in the exception table. *)
Definition with_exceptions (full_name : string) : string :=
  match lookup full_name HackerBoxes.NAME_EXCEPTIONS with
  | Some mapped => mapped
  | None => full_name
  end.

(** One line of the table: the cells between bars. *)
Definition row_line (cells : list string) : string :=
  "| " ++ join " | " cells ++ " |" ++ nl.

(** [row] has the strings [cells] under the keys [headers], in that
    order. *)
Definition row_strings (headers : list string) (row : dict)
    (cells : list string) : Prop :=
  Forall2 (fun h c => lookup h row = Some (VStr c)) headers cells.

(** The three columns of the table of the entry point. *)
Definition columns : list string := ["name"; "picture"; "contents"].

End Notions.

(** ** Further store fronts *)

Module Cases.
Import PyStr Py.

(** The second listing page lists a product whose label has no
    separator. *)
Definition labels_unseparated : list string :=
  [ "HackerBox #0042 Starter Workshop" ].

Definition web_unseparated : list (string * response) :=
  [ (HackerBoxes.url, Demo.listing_page Demo.labels_1);
    (HackerBoxes.page_url 2, Demo.listing_page labels_unseparated) ].

Definition runtime_unseparated : Runtime := {|
  session_get := Demo.get web_unseparated;
  requests_get := Demo.get web_unseparated;
  json_loads := fun s =>
    if String.eqb s (Demo.meta_json labels_unseparated)
    then Ok (Demo.meta_value labels_unseparated)
    else Demo.loads s;
  json_dumps := Demo.repr;
  py_repr := Demo.repr;
  path := string;
  ASSETS := "/srv/hb/assets";
  path_div := fun p name => p ++ "/" ++ name;
  path_name := Demo.basename;
  path_str := fun p => p
|}.

(** Every address answers with the same listing page. *)
Definition runtime_endless : Runtime := {|
  session_get := fun _ => Ok (Demo.listing_page Demo.labels_2);
  requests_get := fun _ => Ok (Demo.listing_page Demo.labels_2);
  json_loads := Demo.loads;
  json_dumps := Demo.repr;
  py_repr := Demo.repr;
  path := string;
  ASSETS := "/srv/hb/assets";
  path_div := fun p name => p ++ "/" ++ name;
  path_name := Demo.basename;
  path_str := fun p => p
|}.

(** The detail page of box 0041 has lost its product block. *)
Definition web_one_missing : list (string * response) :=
  [ (HackerBoxes.url, Demo.listing_page Demo.labels_1);
    (HackerBoxes.page_url 2, Demo.page 404 "Not Found");
    (HackerBoxes.url ++ "/products/hackerbox-0095-ai-camera",
     Demo.detail_page Demo.json_0095);
    (HackerBoxes.url ++ "/products/hackerbox-0041-circuit-breaker",
     Demo.page 200 "<html></html>");
    ("https://cdn.example.com/0095.png", Demo.page 200 "PNG-0095") ].

(** A box whose description has no list. *)
Definition json_plain : string :=
  Demo.product_json "<p>Sold out<\/p>" "//cdn.example.com/plain.png".

Definition description_plain : string := "<p>Sold out</p>".

Definition web_plain : list (string * response) :=
  [ (HackerBoxes.url ++ "/products/hackerbox-0001-plain", Demo.detail_page json_plain);
    ("https://cdn.example.com/plain.png", Demo.page 200 "PNG-plain") ].

Definition runtime_plain : Runtime := {|
  session_get := Demo.get web_plain;
  requests_get := Demo.get web_plain;
  json_loads := fun s =>
    if String.eqb s json_plain
    then Ok (Demo.product_value description_plain "//cdn.example.com/plain.png")
    else Raise ValueError;
  json_dumps := Demo.repr;
  py_repr := Demo.repr;
  path := string;
  ASSETS := "/srv/hb/assets";
  path_div := fun p name => p ++ "/" ++ name;
  path_name := Demo.basename;
  path_str := fun p => p
|}.

Definition nothing_written (R : Runtime) : @world R :=
  {| files := []; stdout := [] |}.

End Cases.

(** * Properties *)

Import PyStr Re Py HackerBoxes Spec.

(** ** Strings *)

Lemma append_empty_r (s : string) : s ++ "" = s.
Proof. induction s as [|c s IH]; simpl; [reflexivity | now rewrite IH]. Qed.

Lemma append_assoc (a b c : string) : (a ++ b) ++ c = a ++ (b ++ c).
Proof. induction a as [|x a IH]; simpl; [reflexivity | now rewrite IH]. Qed.

Lemma length_append (a b : string) :
  String.length (a ++ b) = String.length a + String.length b.
Proof. induction a as [|x a IH]; simpl; [reflexivity | now rewrite IH]. Qed.

Lemma strip_prefix_sound (p s r : string) :
  strip_prefix p s = Some r -> s = p ++ r.
Proof.
  revert s; induction p as [|a p IH]; intros s H; simpl in *.
  - now inversion H.
  - destruct s as [|b s]; [discriminate|].
    destruct (Ascii.eqb_spec a b) as [->|]; [|discriminate].
    now rewrite (IH _ H).
Qed.

Lemma strip_prefix_append (p r : string) : strip_prefix p (p ++ r) = Some r.
Proof.
  induction p as [|a p IH]; simpl; [reflexivity|].
  now rewrite Ascii.eqb_refl.
Qed.

Lemma find_first_unfold (sep s : string) :
  find_first sep s
  = match strip_prefix sep s with
    | Some after => Some ("", after)
    | None =>
        match s with
        | "" => None
        | String c s' =>
            match find_first sep s' with
            | Some (before, after) => Some (String c before, after)
            | None => None
            end
        end
    end.
Proof. destruct s; reflexivity. Qed.

Lemma find_first_sound (sep s before after : string) :
  find_first sep s = Some (before, after) -> s = before ++ sep ++ after.
Proof.
  revert before; induction s as [|c s IH]; intros before H;
    rewrite find_first_unfold in H.
  - destruct (strip_prefix sep "") eqn:E; [|discriminate].
    inversion H; subst. exact (strip_prefix_sound sep _ _ E).
  - destruct (strip_prefix sep (String c s)) eqn:E.
    + inversion H; subst. exact (strip_prefix_sound sep _ _ E).
    + destruct (find_first sep s) as [[b a]|] eqn:F; [|discriminate].
      inversion H; subst. simpl. now rewrite (IH _ eq_refl).
Qed.

Lemma find_first_none (sep s : string) :
  ~ occurs sep s -> find_first sep s = None.
Proof.
  intros H. destruct (find_first sep s) as [[b a]|] eqn:F; [|reflexivity].
  exfalso. apply H. exists b, a. now apply find_first_sound.
Qed.

(** ** The pagination walker *)

Section Walker.
Context {R : Runtime}.

Lemma parse_box_names_http (u : string) :
  fetch_raises_http u -> parse_box_names u = Raise HTTPError.
Proof.
  intros (r & Hget & Hstatus). unfold parse_box_names.
  rewrite Hget. simpl. rewrite Hstatus. reflexivity.
Qed.

Lemma parse_box_names_ends (u : string) (e : exn) :
  listing_ends u e -> parse_box_names u = Raise e.
Proof.
  intros H. destruct H as [H | r Hget Hstatus Hsearch
                             | r g meta products Hget Hstatus Hsearch Hg Hloads Hitem Htruth].
  - now apply parse_box_names_http.
  - unfold parse_box_names. rewrite Hget. simpl. rewrite Hstatus. simpl.
    now rewrite Hsearch.
  - unfold parse_box_names. rewrite Hget. simpl. rewrite Hstatus. simpl.
    rewrite Hsearch, Hg, Hloads. simpl. rewrite Hitem. simpl.
    now rewrite Htruth.
Qed.

Lemma listing_ends_caught (u : string) (e : exn) :
  listing_ends u e -> e = HTTPError \/ exists msg, e = AssertionError msg.
Proof. intros []; [now left | right; eauto | right; eauto]. Qed.

Lemma loop_stops (fuel i : nat) (boxes : list string) (e : exn) :
  listing_ends (page_url i) e ->
  get_all_boxes_loop (S fuel) i boxes = Some (Ok boxes).
Proof.
  intros H. simpl. rewrite (parse_box_names_ends _ _ H).
  destruct (listing_ends_caught _ _ H) as [-> | [msg ->]]; reflexivity.
Qed.

Lemma loop_continues (fuel i : nat) (boxes names : list string) :
  parse_box_names (page_url i) = Ok names ->
  get_all_boxes_loop (S fuel) i boxes
  = get_all_boxes_loop fuel (S i) (boxes ++ names)%list.
Proof. intros H. simpl. now rewrite H. Qed.

End Walker.

(** C1: when the base page and page 2 each yield their slugs and the
    fetch of page 3 raises an HTTP failure, [get_all_boxes] returns the
    slugs of page 1 followed by those of page 2, and raises nothing.  Two
    turns of the loop are enough. *)
Theorem walker_stops_at_failed_page :
  forall (R : Runtime) (page1 page2 : list string) (fuel : nat),
    parse_box_names url = Ok page1 ->
    parse_box_names (page_url 2) = Ok page2 ->
    fetch_raises_http (page_url 3) ->
    2 <= fuel ->
    get_all_boxes fuel = Some (Ok (page1 ++ page2)%list).
Proof.
  intros R page1 page2 fuel H1 H2 H3 Hfuel.
  destruct fuel as [|[|fuel]]; try lia.
  unfold get_all_boxes. rewrite H1.
  rewrite (loop_continues _ _ _ _ H2).
  apply loop_stops with (e := HTTPError). now constructor.
Qed.

Lemma walker_stops_at_failed_page_witness :
  @get_all_boxes Demo.runtime 2
  = Some (Ok (["hackerbox-0095-ai-camera"; "hackerbox-0041-circuit-breaker"]
              ++ ["hackerbox-0010-inventors-kit"])%list).
Proof.
  apply (walker_stops_at_failed_page Demo.runtime).
  - vm_compute. reflexivity.
  - vm_compute. reflexivity.
  - exists (Demo.page 404 "Not Found"). split; vm_compute; reflexivity.
  - lia.
Defined.



(** ** The name normalizer *)

(** C2: the label of box 0095 is cut to [AI Camera Lab] at the first
    separator after the number, turned into the slug
    [hackerbox-0095-ai-camera-lab], and that slug is replaced through the
    exception table. *)
Theorem normalize_name_ai_camera_lab :
  let label := "HackerBox #0095 - AI Camera Lab - Build a Vision System" in
  normalize_name label = Ok "hackerbox-0095-ai-camera"
  /\ split1 " - " (slice_from 11 label)
     = ["0095"; "AI Camera Lab - Build a Vision System"]
  /\ hd "" (split1 " - " "AI Camera Lab - Build a Vision System") = "AI Camera Lab"
  /\ lower (join "-" (split_ws "AI Camera Lab")) = "ai-camera-lab"
  /\ lookup "hackerbox-0095-ai-camera-lab" NAME_EXCEPTIONS
     = Some "hackerbox-0095-ai-camera".
Proof. repeat split; vm_compute; reflexivity. Qed.

Lemma find_first_complete (sep before after : string) :
  find_first sep (before ++ sep ++ after) <> None.
Proof.
  induction before as [|c b IH]; rewrite find_first_unfold; simpl.
  - now rewrite strip_prefix_append.
  - destruct (strip_prefix sep (String c (b ++ sep ++ after))); [discriminate|].
    destruct (find_first sep (b ++ sep ++ after)) as [[x y]|]; [discriminate|].
    now elim IH.
Qed.

Lemma occurs_contains (sep s : string) :
  occurs sep s <-> contains sep s = true.
Proof.
  unfold contains; split.
  - intros (b & a & ->).
    pose proof (find_first_complete sep b a) as H.
    destruct (find_first sep (b ++ sep ++ a)); [reflexivity | now elim H].
  - destruct (find_first sep s) as [[b a]|] eqn:F; [|discriminate].
    intros _. exists b, a. now apply find_first_sound.
Qed.

(** C9: a label whose text after the 11-character prefix has no separator
    makes the normalizer raise [ValueError]; the loop of
    [parse_box_names] over a page that lists such a product raises it too,
    whatever follows. *)
Theorem normalize_name_needs_separator :
  forall label : string,
    ~ occurs " - " (slice_from 11 label) ->
    normalize_name label = Raise ValueError
    /\ forall rest : list value,
         box_names (VDict [("variants", VList [VDict [("name", VStr label)]])]
                      :: rest)
         = Raise ValueError.
Proof.
  intros label H.
  assert (Hn : normalize_name label = Raise ValueError).
  { unfold normalize_name, split1. now rewrite (find_first_none _ _ H). }
  split; [exact Hn|].
  intros rest. cbn [box_names].
  replace (box_name (VDict [("variants", VList [VDict [("name", VStr label)]])]))
    with (normalize_name label) by reflexivity.
  now rewrite Hn.
Qed.

Lemma normalize_name_needs_separator_witness :
  normalize_name "HackerBox #0042 Starter Workshop" = Raise ValueError.
Proof.
  apply (normalize_name_needs_separator "HackerBox #0042 Starter Workshop").
  intros H. apply occurs_contains in H. vm_compute in H. discriminate.
Defined.

(** ** The markdown table *)

(** C7: for the headers [a], [b] and the one row [{a: x, b: y}] the table
    is the three lines [| a | b |], [| --- | --- |] and [| x | y |], each
    ended by a newline; each run of dashes is as long as its header plus
    two. *)
Theorem generate_two_columns_one_row :
  forall R : Runtime,
    render ["a"; "b"] [[("a", VStr "x"); ("b", VStr "y")]]
    = Ok ("| a | b |" ++ nl ++ "| --- | --- |" ++ nl ++ "| x | y |" ++ nl)
    /\ map (fun h => String.length (dashes (String.length h + 2))) ["a"; "b"]
       = [3; 3].
Proof. intros R. split; reflexivity. Qed.

Lemma has_all_headers_false (headers : list string) (row : dict) (h : string) :
  In h headers -> has_key h row = false -> MarkdownTable.has_all_headers headers row = false.
Proof.
  intros Hin Hkey. unfold MarkdownTable.has_all_headers.
  destruct (forallb (fun h0 => has_key h0 row) headers) eqn:E; [|reflexivity].
  rewrite forallb_forall in E. rewrite (E _ Hin) in Hkey. discriminate.
Qed.

Lemma check_rows_first_bad {R : Runtime} (headers : list string) (rows : list dict) :
  forallb (MarkdownTable.has_all_headers headers) rows = false ->
  exists before bad after,
    rows = (before ++ bad :: after)%list
    /\ forallb (MarkdownTable.has_all_headers headers) before = true
    /\ MarkdownTable.has_all_headers headers bad = false
    /\ MarkdownTable.check_rows headers rows
       = Raise (AssertionError
                  (Some ("Missing header for: " ++ py_repr (VDict bad)))).
Proof.
  induction rows as [|row rows IH]; simpl; [discriminate|].
  destruct (MarkdownTable.has_all_headers headers row) eqn:E; simpl.
  - intros H. destruct (IH H) as (before & bad & after & -> & Hb & Hbad & Hc).
    exists (row :: before), bad, after. simpl. rewrite E, Hb. auto.
  - intros _. exists [], row, rows. simpl. auto.
Qed.

(** C8: when some row lacks a header key, building the table fails the
    assertion with the message [Missing header for: ] followed by the
    first row of the list that lacks a key (the offending row itself when
    it is the only one), and building and generating yield no text. *)
Theorem missing_header_fails :
  forall (R : Runtime) (headers : list string) (rows : list dict)
         (row : dict) (h : string),
    In row rows -> In h headers -> has_key h row = false ->
    exists before bad after,
      rows = (before ++ bad :: after)%list
      /\ forallb (MarkdownTable.has_all_headers headers) before = true
      /\ MarkdownTable.has_all_headers headers bad = false
      /\ ((forall r, In r rows -> MarkdownTable.has_all_headers headers r = false -> r = row)
          -> bad = row)
      /\ MarkdownTable.init headers rows
         = Raise (AssertionError
                    (Some ("Missing header for: " ++ py_repr (VDict bad))))
      /\ forall generated : string, render headers rows <> Ok generated.
Proof.
  intros R headers rows row h Hrow Hh Hkey.
  assert (Hsome : forallb (MarkdownTable.has_all_headers headers) rows = false).
  { destruct (forallb (MarkdownTable.has_all_headers headers) rows) eqn:E; [|reflexivity].
    rewrite forallb_forall in E. specialize (E _ Hrow).
    rewrite (has_all_headers_false _ _ _ Hh Hkey) in E. discriminate. }
  destruct (check_rows_first_bad headers rows Hsome)
    as (before & bad & after & Heq & Hb & Hbad & Hc).
  exists before, bad, after. repeat split; trivial.
  - intros Honly. apply Honly; [|exact Hbad].
    rewrite Heq. apply in_or_app. right. now left.
  - unfold MarkdownTable.init. now rewrite Hc.
  - intros generated. unfold render, MarkdownTable.init. rewrite Hc. discriminate.
Qed.

Lemma missing_header_fails_witness :
  exists before bad after,
    [[("a", VStr "x"); ("b", VStr "y")]; [("a", VStr "z")]]
    = (before ++ bad :: after)%list
    /\ forallb (MarkdownTable.has_all_headers ["a"; "b"]) before = true
    /\ MarkdownTable.has_all_headers ["a"; "b"] bad = false
    /\ ((forall r, In r [[("a", VStr "x"); ("b", VStr "y")]; [("a", VStr "z")]] ->
                   MarkdownTable.has_all_headers ["a"; "b"] r = false -> r = [("a", VStr "z")])
        -> bad = [("a", VStr "z")])
    /\ @MarkdownTable.init Demo.runtime ["a"; "b"]
         [[("a", VStr "x"); ("b", VStr "y")]; [("a", VStr "z")]]
       = Raise (AssertionError
                  (Some ("Missing header for: " ++ Demo.repr (VDict bad))))
    /\ forall generated : string,
         @render Demo.runtime ["a"; "b"]
           [[("a", VStr "x"); ("b", VStr "y")]; [("a", VStr "z")]]
         <> Ok generated.
Proof.
  apply (missing_header_fails Demo.runtime ["a"; "b"] _ [("a", VStr "z")] "b").
  - simpl. auto.
  - simpl. auto.
  - reflexivity.
Defined.

(** ** The item detail parser *)

Lemma join_empty_cons (x : string) (l : list string) :
  join "" (x :: l) = x ++ join "" l.
Proof. destruct l; simpl; [now rewrite append_empty_r | reflexivity]. Qed.

(** A separator whose first character does not come back in it cannot
    begin inside [s] and end in a text that starts with that character. *)
Lemma strip_prefix_tail_no_straddle (f : ascii) (tail s next : string) :
  sforall (fun c => negb (Ascii.eqb c f)) tail = true ->
  next = "" \/ (exists next', next = String f next') ->
  strip_prefix tail s = None ->
  strip_prefix tail (s ++ next) = None.
Proof.
  intros Htail Hnext. revert s.
  induction tail as [|a tail IH]; intros s H; simpl in *; [discriminate|].
  apply andb_prop in Htail as [Ha Htail].
  destruct s as [|b s]; simpl.
  - destruct Hnext as [-> | [next' ->]]; [reflexivity|].
    destruct (Ascii.eqb a f); [discriminate | reflexivity].
  - destruct (Ascii.eqb a b); [now apply IH | reflexivity].
Qed.

Lemma strip_prefix_no_straddle (f : ascii) (tail s next : string) :
  sforall (fun c => negb (Ascii.eqb c f)) tail = true ->
  next = "" \/ (exists next', next = String f next') ->
  s <> "" ->
  strip_prefix (String f tail) s = None ->
  strip_prefix (String f tail) (s ++ next) = None.
Proof.
  intros Htail Hnext Hs H. destruct s as [|c s]; [now elim Hs|].
  simpl in *. destruct (Ascii.eqb f c); [|reflexivity].
  now apply strip_prefix_tail_no_straddle with (f := f).
Qed.

Lemma find_first_none_inv (sep : string) (c : ascii) (s : string) :
  find_first sep (String c s) = None ->
  strip_prefix sep (String c s) = None /\ find_first sep s = None.
Proof.
  rewrite find_first_unfold.
  destruct (strip_prefix sep (String c s)); [discriminate|].
  destruct (find_first sep s) as [[x y]|]; [discriminate | auto].
Qed.

Lemma find_first_append (f : ascii) (tail b rest : string) :
  sforall (fun c => negb (Ascii.eqb c f)) tail = true ->
  find_first (String f tail) b = None ->
  find_first (String f tail) (b ++ String f tail ++ rest) = Some (b, rest).
Proof.
  intros Htail. induction b as [|c b IH]; intros H.
  - rewrite find_first_unfold.
    change ("" ++ String f tail ++ rest) with (String f tail ++ rest).
    now rewrite strip_prefix_append.
  - apply find_first_none_inv in H as [Hp Hf].
    assert (Hs : strip_prefix (String f tail)
                   (String c b ++ (String f tail ++ rest)) = None).
    { apply strip_prefix_no_straddle; trivial; [|discriminate].
      right. simpl. eauto. }
    change (String c b ++ String f tail ++ rest)
      with (String c (b ++ String f tail ++ rest)) in *.
    rewrite find_first_unfold, Hs, (IH Hf). reflexivity.
Qed.

Lemma find_closing_tag (b rest : string) :
  contains "</li>" b = false ->
  find_first "</li>" (b ++ "</li>" ++ rest) = Some (b, rest).
Proof.
  intros H. apply (find_first_append "<" "/li>"); [reflexivity|].
  unfold contains in H. destruct (find_first "</li>" b); [discriminate | reflexivity].
Qed.

Lemma unwrap_items_wrap (bullets : list string) :
  (forall b, In b bullets -> contains "</li>" b = false) ->
  forall fuel,
    String.length (join "" (map li bullets)) < fuel ->
    unwrap_items fuel (join "" (map li bullets) ++ "</ul>") = Some bullets.
Proof.
  induction bullets as [|b bullets IH]; intros Hb fuel Hfuel.
  - destruct fuel; [simpl in Hfuel; lia | reflexivity].
  - rewrite map_cons, join_empty_cons in *.
    destruct fuel as [|fuel]; [lia|].
    unfold li at 1. unfold li at 1 in Hfuel.
    rewrite !append_assoc. cbn [unwrap_items append String.eqb Ascii.eqb Bool.eqb strip_prefix].
    pose proof (find_closing_tag b (join "" (map li bullets) ++ "</ul>")
                  (Hb b (or_introl eq_refl))) as Hfind.
    cbn [append] in Hfind. rewrite Hfind.
    rewrite IH; [reflexivity | intros; apply Hb; now right |].
    rewrite !length_append in Hfuel. simpl in Hfuel. lia.
Qed.

Lemma strip_wrapping_wrap (bullets : list string) :
  (forall b, In b bullets -> contains "</li>" b = false) ->
  strip_wrapping ("<ul>" ++ join "" (map li bullets) ++ "</ul>") = Some bullets.
Proof.
  intros H. unfold strip_wrapping. cbn [append strip_prefix Ascii.eqb Bool.eqb].
  apply unwrap_items_wrap; [exact H|].
  rewrite length_append. simpl. lia.
Qed.

Lemma map_VStr_injective (a b : list string) :
  map VStr a = map VStr b -> a = b.
Proof.
  revert b; induction a as [|x a IH]; intros [|y b] H; simpl in H;
    try discriminate; [reflexivity|].
  inversion H; subst. f_equal. now apply IH.
Qed.

Section DetailParser.
Context {R : Runtime}.

(** What a successful call has read and what it has put into the two
    rows. *)
Lemma get_box_contents_rows (name : string) (w w' : world) (t j : dict) :
  get_box_contents name w = (Ok (t, j), w') ->
  exists (page : response) (g : string) (product : value) (description : string),
    session_get (url ++ "/products/" ++ name) = Ok page
    /\ search product_re (text page) = Some g
    /\ json_loads g = Ok product
    /\ getitem_key product "description" = Ok (VStr description)
    /\ lookup "contents" t
       = Some (VStr ("<ul>" ++ join "" (map li (findall li_re description)) ++ "</ul>"))
    /\ lookup "contents" j = Some (VList (map VStr (findall li_re description))).
Proof.
  unfold get_box_contents. intros H.
  destruct (session_get _) as [page|] eqn:Hpage; [|inversion H].
  destruct (search product_re _) as [g|] eqn:Hsearch; [|inversion H].
  destruct (is_empty _); [inversion H|].
  destruct (json_loads _) as [product|] eqn:Hloads; [|inversion H].
  destruct (getitem_key product "description") as [description|] eqn:Hd;
    [|inversion H].
  destruct (negb (truthy description)); [inversion H|].
  destruct description as [| | |d| |]; try (inversion H; fail).
  destruct (f <- getitem_key product "featured_image";; getslice_from f 2);
    [|inversion H].
  destruct (requests_get _); [|inversion H].
  inversion H; subst. exists page, g, product, d. repeat split; trivial.
Qed.

End DetailParser.

(** C3 (amended): when no bullet of the JSON row contains the closing tag
    [</li>], reading the table row's [contents] back, the [<ul>] wrapper
    and the [<li>] wrapper of each item removed, gives the bullets of the
    JSON row of the same call, in the same order. *)
Theorem table_contents_round_trip :
  forall (R : Runtime) (name : string) (w w' : world) (t j : dict)
         (bullets : list string),
    get_box_contents name w = (Ok (t, j), w') ->
    lookup "contents" j = Some (VList (map VStr bullets)) ->
    (forall b, In b bullets -> contains "</li>" b = false) ->
    exists html : string,
      lookup "contents" t = Some (VStr html)
      /\ strip_wrapping html = Some bullets.
Proof.
  intros R name w w' t j bullets Hcall Hj Hb.
  destruct (get_box_contents_rows _ _ _ _ _ Hcall)
    as (page & g & product & d & _ & _ & _ & _ & Ht & Hj').
  rewrite Hj' in Hj. inversion Hj as [Heq].
  apply map_VStr_injective in Heq. subst bullets.
  eexists. split; [exact Ht|]. now apply strip_wrapping_wrap.
Qed.

Lemma table_contents_round_trip_witness :
  exists html : string,
    lookup "contents" (Demo.table_row "hackerbox-0095-ai-camera") = Some (VStr html)
    /\ strip_wrapping html = Some ["Solder"; "Flux"].
Proof.
  apply (table_contents_round_trip Demo.runtime "hackerbox-0095-ai-camera"
           Demo.empty_world (Demo.world_after "hackerbox-0095-ai-camera")
           (Demo.table_row "hackerbox-0095-ai-camera")
           (Demo.json_row "hackerbox-0095-ai-camera") ["Solder"; "Flux"]).
  - vm_compute. reflexivity.
  - vm_compute. reflexivity.
  - intros b [<- | [<- | []]]; vm_compute; reflexivity.
Defined.

(** C3 as stated fails: the box whose two items stand on one line has the
    single bullet [Solder</li><li>Flux], and its table row reads back as
    the two bullets [Solder] and [Flux]; the box with the same items on
    two lines has the same table row and those two bullets, so no way of
    reading the table row back gives the JSON row's bullets for both. *)
Lemma table_contents_round_trip_fails :
  (@get_box_contents Demo.runtime "hackerbox-0010-inventors-kit" Demo.empty_world
   = (Ok (Demo.table_row "hackerbox-0010-inventors-kit",
          Demo.json_row "hackerbox-0010-inventors-kit"),
      Demo.world_after "hackerbox-0010-inventors-kit")
   /\ lookup "contents" (Demo.json_row "hackerbox-0010-inventors-kit")
      = Some (VList [VStr "Solder</li><li>Flux"])
   /\ lookup "contents" (Demo.table_row "hackerbox-0010-inventors-kit")
      = Some (VStr "<ul><li>Solder</li><li>Flux</li></ul>")
   /\ strip_wrapping "<ul><li>Solder</li><li>Flux</li></ul>"
      = Some ["Solder"; "Flux"])
  /\ ~ (exists strip : string -> list string,
          forall (R : Runtime) (name : string) (w w' : world) (t j : dict)
                 (bullets : list string) (html : string),
            get_box_contents name w = (Ok (t, j), w') ->
            lookup "contents" j = Some (VList (map VStr bullets)) ->
            lookup "contents" t = Some (VStr html) ->
            strip html = bullets).
Proof.
  split.
  - repeat split; vm_compute; reflexivity.
  - intros [strip H].
    assert (H1 : strip "<ul><li>Solder</li><li>Flux</li></ul>"
                 = ["Solder</li><li>Flux"]).
    { apply (H Demo.runtime "hackerbox-0010-inventors-kit" Demo.empty_world
               (Demo.world_after "hackerbox-0010-inventors-kit")
               (Demo.table_row "hackerbox-0010-inventors-kit")
               (Demo.json_row "hackerbox-0010-inventors-kit"));
        vm_compute; reflexivity. }
    assert (H2 : strip "<ul><li>Solder</li><li>Flux</li></ul>"
                 = ["Solder"; "Flux"]).
    { apply (H Demo.runtime "hackerbox-0095-ai-camera" Demo.empty_world
               (Demo.world_after "hackerbox-0095-ai-camera")
               (Demo.table_row "hackerbox-0095-ai-camera")
               (Demo.json_row "hackerbox-0095-ai-camera"));
        vm_compute; reflexivity. }
    rewrite H1 in H2. discriminate.
Qed.

(** C6: [get_box_contents] looks at the status of neither response.  When
    the detail page carries the product block and the image address
    answers at all, the call returns the two rows and writes the body of
    the image response to the file, whatever the two status codes are. *)
Theorem detail_parser_ignores_status :
  forall (R : Runtime) (name : string) (w : world) (page : response)
         (g : string) (product : value) (d image : string) (picture : response),
    session_get (url ++ "/products/" ++ name) = Ok page ->
    search product_re (text page) = Some g ->
    is_empty g = false ->
    json_loads g = Ok product ->
    getitem_key product "description" = Ok (VStr d) ->
    is_empty d = false ->
    getitem_key product "featured_image" = Ok (VStr image) ->
    requests_get ("https://" ++ slice_from 2 image) = Ok picture ->
    exists t j : dict,
      get_box_contents name w
      = (Ok (t, j),
         print ("File written to: " ++ path_str (path_div ASSETS (name ++ ".png")))
           (write_bytes (path_div ASSETS (name ++ ".png")) (content picture) w)).
Proof.
  intros R name w page g product d image picture
         Hget Hsearch Hg Hloads Hdesc Hd Himage Hpicture.
  unfold get_box_contents.
  rewrite Hget, Hsearch, Hg, Hloads, Hdesc. cbn [truthy]. rewrite Hd.
  cbn [negb]. rewrite Himage. cbn [bind getslice_from format_value].
  rewrite Hpicture. eauto.
Qed.

Lemma detail_parser_ignores_status_witness :
  status_code (Demo.page 404 "Not Found") = 404%Z
  /\ exists t j : dict,
       @get_box_contents Demo.runtime "hackerbox-0041-circuit-breaker"
         Demo.empty_world
       = (Ok (t, j),
          @print Demo.runtime
            "File written to: /srv/hb/assets/hackerbox-0041-circuit-breaker.png"
            (@write_bytes Demo.runtime
               "/srv/hb/assets/hackerbox-0041-circuit-breaker.png" "Not Found"
               Demo.empty_world)).
Proof.
  split; [reflexivity|].
  apply (detail_parser_ignores_status Demo.runtime
           "hackerbox-0041-circuit-breaker" Demo.empty_world
           (Demo.detail_page Demo.json_0041) Demo.json_0041
           (Demo.product_value Demo.description_0041 "//cdn.example.com/0041.png")
           Demo.description_0041 "//cdn.example.com/0041.png"
           (Demo.page 404 "Not Found"));
    vm_compute; reflexivity.
Defined.

(** ** The pattern of canonical slugs *)

Ltac each_char c :=
  destruct c as [[] [] [] [] [] [] [] []]; vm_compute;
  intros; try reflexivity; try discriminate.




Lemma sforall_append (f : ascii -> bool) (a b : string) :
  sforall f (a ++ b) = sforall f a && sforall f b.
Proof.
  induction a as [|x a IH]; simpl; [reflexivity|].
  now rewrite IH, andb_assoc.
Qed.








(** ** Matching the pattern of an item *)

Lemma match_rep_unfold (greedy : bool) (least : nat) (cls : ascii -> bool)
      (p : regex) (s g_open g_close : string) :
  match_here (Rep greedy least cls :: p) s g_open g_close
  = let stop := match least with
                | O => match_here p s g_open g_close
                | S _ => None
                end in
    match s with
    | String d s' =>
        let more := if cls d
                    then match_here (Rep greedy (pred least) cls :: p) s' g_open g_close
                    else None in
        if greedy
        then match more with Some r => Some r | None => stop end
        else match stop with Some r => Some r | None => more end
    | "" => stop
    end.
Proof. destruct s; reflexivity. Qed.

(** A lazy repetition passes over [u] when what follows the repetition in
    the pattern matches after [u] and at no place inside [u]. *)
Lemma match_rep_lazy (cls : ascii -> bool) (p : regex)
      (u s g_open g_close : string) (r : matched) :
  sforall cls u = true ->
  (forall u1 u2, u = u1 ++ u2 -> u2 <> "" ->
                 match_here p (u2 ++ s) g_open g_close = None) ->
  match_here p s g_open g_close = Some r ->
  match_here (Rep false 0 cls :: p) (u ++ s) g_open g_close = Some r.
Proof.
  induction u as [|c u IH]; intros Hcls Hinside Hafter.
  - rewrite match_rep_unfold. simpl. rewrite Hafter. now destruct s.
  - simpl in Hcls. apply andb_prop in Hcls as [Hc Hcls].
    assert (H0 : match_here p (String c u ++ s) g_open g_close = None)
      by (apply (Hinside "" (String c u) eq_refl); discriminate).
    cbn [append] in *. rewrite match_rep_unfold. cbn [pred].
    rewrite H0, Hc. apply IH; trivial.
    intros u1 u2 -> Hu2. now apply (Hinside (String c u1) u2).
Qed.

Lemma li_closing_inv (s g_open g_close : string) (r : matched) :
  match_here [GroupClose; Lit "<"; Opt backslash; Lit ("/li>" ++ nl)]
    s g_open g_close = Some r ->
  exists rest, s = closing false ++ nl ++ rest \/ s = closing true ++ nl ++ rest.
Proof.
  cbn [match_here]. destruct (strip_prefix "<" s) as [s1|] eqn:E1; [|discriminate].
  apply strip_prefix_sound in E1. subst s.
  assert (Hplain : forall x, match strip_prefix ("/li>" ++ nl) s1 with
                        | Some s' => Some (s', g_open, "<" ++ s1)
                        | None => None
                        end = Some x ->
                   exists rest, "<" ++ s1 = closing false ++ nl ++ rest
                             \/ "<" ++ s1 = closing true ++ nl ++ rest).
  { intros x H. destruct (strip_prefix ("/li>" ++ nl) s1) as [s'|] eqn:E; [|discriminate].
    apply strip_prefix_sound in E. subst s1. exists s'. now left. }
  destruct s1 as [|d s2]; [intros H; discriminate|].
  destruct (Ascii.eqb_spec backslash d) as [<-|Hd]; [|apply Hplain].
  destruct (strip_prefix ("/li>" ++ nl) s2) as [s'|] eqn:E2.
  - intros _. apply strip_prefix_sound in E2. subst s2. exists s'. now right.
  - apply Hplain.
Qed.

Lemma no_newline_cons (c : ascii) (s : string) :
  no_newline (String c s) = true ->
  c <> "010"%char /\ no_newline s = true.
Proof.
  unfold no_newline. simpl. intros H. apply andb_prop in H as [Hc Hs].
  split; [|exact Hs]. intros ->. discriminate.
Qed.

Ltac peel_text u Hnl H :=
  destruct u as [|? u];
  [ try (simpl in H; discriminate H)
  | apply no_newline_cons in Hnl as [? Hnl];
    simpl in H; injection H as ? H; subst; try congruence ].

(** Inside a text without newline the closing tag and its newline match
    nowhere but at the end. *)
Lemma li_closing_not_inside (u rest g_open g_close : string) (e : bool) :
  u <> "" -> no_newline u = true ->
  match_here [GroupClose; Lit "<"; Opt backslash; Lit ("/li>" ++ nl)]
    (u ++ closing e ++ nl ++ rest) g_open g_close = None.
Proof.
  intros Hu Hnl.
  destruct (match_here _ _ _ _) as [r|] eqn:E; [|reflexivity].
  exfalso. apply li_closing_inv in E as [x [H | H]].
  - destruct u as [|c u]; [now elim Hu|]. clear Hu.
    apply no_newline_cons in Hnl as [Hc Hnl].
    destruct e; simpl in H; injection H as ? H; subst;
      do 6 (peel_text u Hnl H).
  - destruct u as [|c u]; [now elim Hu|]. clear Hu.
    apply no_newline_cons in Hnl as [Hc Hnl].
    destruct e; simpl in H; injection H as ? H; subst;
      do 7 (peel_text u Hnl H).
Qed.

Lemma li_closing_matches (e : bool) (rest g_open g_close : string) :
  match_here [GroupClose; Lit "<"; Opt backslash; Lit ("/li>" ++ nl)]
    (closing e ++ nl ++ rest) g_open g_close
  = Some (rest, g_open, closing e ++ nl ++ rest).
Proof. destruct e; reflexivity. Qed.

Lemma sforall_suffix (f : ascii -> bool) (u1 u2 : string) :
  sforall f (u1 ++ u2) = true -> sforall f u2 = true.
Proof. rewrite sforall_append. intros H. now apply andb_prop in H. Qed.

Lemma match_lit (l : string) (p : regex) (s g_open g_close : string) :
  match_here (Lit l :: p) (l ++ s) g_open g_close = match_here p s g_open g_close.
Proof. cbn [match_here]. now rewrite strip_prefix_append. Qed.

Lemma match_lit_fails (l : string) (p : regex) (s g_open g_close : string) :
  strip_prefix l s = None -> match_here (Lit l :: p) s g_open g_close = None.
Proof. intros H. cbn [match_here]. now rewrite H. Qed.

Lemma match_group_open (p : regex) (s g_open g_close : string) :
  match_here (GroupOpen :: p) s g_open g_close = match_here p s s g_close.
Proof. reflexivity. Qed.

Lemma not_newline_char (c : ascii) : c <> "010"%char -> not_newline c = true.
Proof.
  intros Hc. unfold not_newline, code.
  destruct (Nat.eqb_spec (nat_of_ascii c) 10) as [E|]; [|reflexivity].
  elim Hc. now rewrite <- (ascii_nat_embedding c), E.
Qed.

(** The pattern matches a well-formed line, and its group is the text of
    the item. *)
Lemma li_re_matches_line (l : li_line) (rest : string) :
  well_formed_line l = true ->
  match_here li_re (li_text l ++ rest) "" ""
  = Some (rest,
          inner l ++ closing (escaped l) ++ nl ++ rest,
          closing (escaped l) ++ nl ++ rest).
Proof.
  destruct l as [attrs text e gap]. unfold well_formed_line, li_text.
  cbn [attributes inner escaped after].
  intros H. apply andb_prop in H as [H _].
  apply andb_prop in H as [H Htext_nl]. apply andb_prop in H as [H Htext].
  apply andb_prop in H as [Hattrs_nl Hattrs].
  replace ((nl ++ "<li" ++ attrs ++ ">" ++ text ++ closing e ++ nl) ++ rest)
    with ((nl ++ "<li") ++ attrs ++ ">" ++ text ++ closing e ++ nl ++ rest)
    by (now rewrite !append_assoc).
  unfold li_re. rewrite match_lit.
  apply match_rep_lazy; [exact Hattrs_nl | |].
  - intros u1 u2 -> Hu2. apply sforall_suffix in Hattrs.
    destruct u2 as [|c u2]; [now elim Hu2|].
    simpl in Hattrs. apply andb_prop in Hattrs as [Hc _].
    apply match_lit_fails. cbn [append strip_prefix].
    rewrite Ascii.eqb_sym. now destruct (Ascii.eqb c ">").
  - rewrite match_lit, match_group_open.
    destruct text as [|c text]; [discriminate|].
    apply no_newline_cons in Htext_nl as [Hc Htext_nl].
    rewrite match_rep_unfold. cbn [append pred].
    rewrite (not_newline_char _ Hc).
    apply match_rep_lazy; [exact Htext_nl | |].
    + intros u1 u2 -> Hu2. apply li_closing_not_inside; [exact Hu2|].
      now apply sforall_suffix in Htext_nl.
    + apply li_closing_matches.
Qed.

Lemma substring_prefix (a b : string) :
  substring 0 (String.length (a ++ b) - String.length b) (a ++ b) = a.
Proof.
  rewrite length_append, Nat.add_sub.
  induction a as [|c a IH]; simpl; [now destruct b | now rewrite IH].
Qed.

Lemma findall_from_skip (p : regex) (x s : string) :
  findall_from p (String.length x) (x ++ s) = findall_from p 0 s.
Proof. induction x as [|c x IH]; simpl; [now destruct s | exact IH]. Qed.

Lemma findall_from_unfold (p : regex) (s : string) :
  findall_from p 0 s
  = match match_here p s "" "" with
    | Some (r, g_open, g_close) =>
        group_text g_open g_close ::
          match s with
          | String _ s' => findall_from p (String.length s - String.length r - 1) s'
          | "" => []
          end
    | None =>
        match s with
        | String _ s' => findall_from p 0 s'
        | "" => []
        end
    end.
Proof. destruct s; reflexivity. Qed.

Lemma findall_line (l : li_line) (rest : string) :
  well_formed_line l = true ->
  findall_from li_re 0 (li_text l ++ rest)
  = inner l :: findall_from li_re 0 rest.
Proof.
  intros H. rewrite findall_from_unfold, (li_re_matches_line _ _ H).
  unfold group_text.
  rewrite (substring_prefix (inner l) (closing (escaped l) ++ nl ++ rest)).
  f_equal. unfold li_text. cbn [nl append].
  set (line := attributes l ++ String ">" (inner l ++ closing (escaped l) ++ nl)).
  change (String "<" (String "l" (String "i" (line ++ rest))))
    with (("<li" ++ line) ++ rest).
  cbn [String.length]. rewrite length_append.
  replace (S (String.length ("<li" ++ line) + String.length rest)
           - String.length rest - 1)
    with (String.length ("<li" ++ line)) by lia.
  apply findall_from_skip.
Qed.

Lemma li_re_needs_opening (s g_open g_close : string) :
  strip_prefix (nl ++ "<li") s = None -> match_here li_re s g_open g_close = None.
Proof. intros H. unfold li_re. cbn [match_here]. now rewrite H. Qed.

Lemma findall_gap (gap s : string) :
  contains (nl ++ "<li") gap = false ->
  s = "" \/ (exists s', s = String "010" s') ->
  findall_from li_re 0 (gap ++ s) = findall_from li_re 0 s.
Proof.
  intros Hgap Hs. unfold contains in Hgap.
  destruct (find_first (nl ++ "<li") gap) eqn:Hfind; [discriminate|]. clear Hgap.
  induction gap as [|c gap IH]; [reflexivity|].
  apply find_first_none_inv in Hfind as [Hp Hf].
  rewrite findall_from_unfold.
  rewrite li_re_needs_opening.
  - cbn [append]. now apply IH.
  - apply (strip_prefix_no_straddle "010" "<li"); trivial. discriminate.
Qed.

Lemma contains_none (sep gap : string) :
  contains sep gap = false -> find_first sep gap = None.
Proof.
  unfold contains. now destruct (find_first sep gap).
Qed.

Lemma no_newline_no_opening (gap : string) :
  no_newline gap = true -> contains (nl ++ "<li") gap = false.
Proof.
  unfold contains. induction gap as [|c gap IH]; intros H; [reflexivity|].
  apply no_newline_cons in H as [Hc Hgap].
  rewrite find_first_unfold. cbn [nl append strip_prefix].
  destruct (Ascii.eqb_spec "010" c) as [<-|_]; [now elim Hc|].
  specialize (IH Hgap). cbn [nl append] in IH.
  now destruct (find_first _ gap).
Qed.

Lemma findall_no_opening (s : string) :
  contains (nl ++ "<li") s = false -> findall_from li_re 0 s = [].
Proof.
  intros H. rewrite <- (append_empty_r s).
  rewrite findall_gap; [reflexivity | exact H | now left].
Qed.

(** Of items written one per line the parser takes the first, which
    uses up the newline before the second, passes over the second, and so
    on: [ready] tells whether the newline before the first item is still
    there. *)
Lemma findall_item_lines (tail : string) (ts : list string) :
  contains (nl ++ "<li") (nl ++ tail) = false ->
  forallb (fun t => negb (is_empty t) && no_newline t) ts = true ->
  (forall gap, contains (nl ++ "<li") gap = false ->
               findall_from li_re 0 (gap ++ nl ++ item_lines ts ++ tail)
               = every_other ts)
  /\ findall_from li_re 0 (item_lines ts ++ tail) = every_other (tl ts).
Proof.
  intros Htail. induction ts as [|t ts IH]; intros Hts.
  - split.
    + intros gap Hgap. cbn [item_lines append every_other].
      rewrite findall_gap; [|exact Hgap|right; unfold nl; simpl; eauto].
      now apply findall_no_opening.
    + cbn [item_lines append tl every_other]. apply findall_no_opening.
      apply contains_none in Htail. unfold nl in Htail. cbn [append] in Htail.
      apply find_first_none_inv in Htail as [_ Htail].
      unfold contains. cbn [nl append]. now rewrite Htail.
  - cbn [forallb] in Hts. apply andb_prop in Hts as [Ht Hts].
    apply andb_prop in Ht as [Hne Hnl].
    destruct (IH Hts) as [IHready IHused]. split.
    + intros gap Hgap. cbn [item_lines].
      rewrite findall_gap; [|exact Hgap|right; unfold nl; simpl; eauto].
      replace (nl ++ (item_line t ++ item_lines ts) ++ tail)
        with (li_text {| attributes := ""; inner := t; escaped := false;
                         after := "" |} ++ item_lines ts ++ tail)
        by (unfold li_text, item_line, closing; cbn [attributes inner escaped];
            now rewrite !append_assoc).
      rewrite findall_line.
      * cbn [inner]. rewrite IHused. now destruct ts.
      * unfold well_formed_line. cbn [attributes inner after].
        now rewrite Hne, Hnl.
    + cbn [item_lines tl].
      replace ((item_line t ++ item_lines ts) ++ tail)
        with (("<li>" ++ t ++ "</li>") ++ nl ++ item_lines ts ++ tail)
        by (unfold item_line; now rewrite !append_assoc).
      rewrite findall_gap; [|apply no_newline_no_opening
                            |right; unfold nl; simpl; eauto].
      * apply (IHready ""). reflexivity.
      * unfold no_newline in *. cbn [append sforall]. rewrite sforall_append, Hnl.
        reflexivity.
Qed.

(** C5 (code bug): on a description whose list has one item per line the
    parser does not extract every item but the first, the third, the
    fifth ... only, and these become the bullet list: the match of one
    item takes the newline that the pattern needs before the next. *)
Theorem item_lines_lose_every_second :
  forall (R : Runtime) (name : string) (w w' : world) (t j : dict)
         (page : response) (g : string) (product : value)
         (before tail : string) (ts : list string),
    get_box_contents name w = (Ok (t, j), w') ->
    session_get (url ++ "/products/" ++ name) = Ok page ->
    search product_re (text page) = Some g ->
    json_loads g = Ok product ->
    getitem_key product "description"
    = Ok (VStr (before ++ nl ++ item_lines ts ++ tail)) ->
    contains (nl ++ "<li") before = false ->
    contains (nl ++ "<li") (nl ++ tail) = false ->
    forallb (fun t => negb (is_empty t) && no_newline t) ts = true ->
    findall li_re (before ++ nl ++ item_lines ts ++ tail) = every_other ts
    /\ lookup "contents" j = Some (VList (map VStr (every_other ts))).
Proof.
  intros R name w w' t j page g product before tail ts
         Hcall Hpage Hsearch Hloads Hdesc Hbefore Htail Hts.
  assert (Hfind : findall li_re (before ++ nl ++ item_lines ts ++ tail)
                  = every_other ts).
  { unfold findall. now apply (findall_item_lines tail ts Htail Hts). }
  split; [exact Hfind|].
  destruct (get_box_contents_rows _ _ _ _ _ Hcall)
    as (page' & g' & product' & d & Hpage' & Hsearch' & Hloads' & Hdesc' & _ & Hj).
  rewrite Hpage in Hpage'. inversion Hpage'; subst page'.
  rewrite Hsearch in Hsearch'. inversion Hsearch'; subst g'.
  rewrite Hloads in Hloads'. inversion Hloads'; subst product'.
  assert (Hd : d = before ++ nl ++ item_lines ts ++ tail) by congruence.
  subst d. now rewrite Hj, Hfind.
Qed.

Lemma item_lines_lose_every_second_witness :
  findall li_re Demo.description_0041 = ["ESP32 board"]
  /\ lookup "contents" (Demo.json_row "hackerbox-0041-circuit-breaker")
     = Some (VList [VStr "ESP32 board"]).
Proof.
  apply (item_lines_lose_every_second Demo.runtime
           "hackerbox-0041-circuit-breaker"
           Demo.empty_world (Demo.world_after "hackerbox-0041-circuit-breaker")
           (Demo.table_row "hackerbox-0041-circuit-breaker")
           (Demo.json_row "hackerbox-0041-circuit-breaker")
           (Demo.detail_page Demo.json_0041) Demo.json_0041
           (Demo.product_value Demo.description_0041 "//cdn.example.com/0041.png")
           "<ul>" "</ul>" ["ESP32 board"; "USB cable"]);
    vm_compute; reflexivity.
Defined.

(** * Further properties *)

Import Notions.

(** ** More on the pagination walker *)

Section WalkerPages.
Context {R : Runtime}.

(** The loop passes over pages that parse, gathering their slugs. *)
Lemma loop_through (later : list (list string)) :
  forall (fuel i : nat) (boxes : list string),
    (forall k names, nth_error later k = Some names ->
                     parse_box_names (page_url (i + k)) = Ok names) ->
    get_all_boxes_loop (List.length later + fuel) i boxes
    = get_all_boxes_loop fuel (i + List.length later) (boxes ++ List.concat later)%list.
Proof.
  induction later as [|names later IH]; intros fuel i boxes Hpages.
  - simpl. now rewrite Nat.add_0_r, app_nil_r.
  - cbn [List.length List.concat Nat.add].
    rewrite (loop_continues _ _ _ names).
    + rewrite IH.
      * now rewrite Nat.add_succ_r, app_assoc.
      * intros k ns Hk. rewrite Nat.add_succ_l, <- Nat.add_succ_r.
        now apply Hpages.
    + rewrite <- (Nat.add_0_r i). now apply Hpages.
Qed.

Lemma loop_uncaught (fuel i : nat) (boxes : list string) (e : exn) :
  parse_box_names (page_url i) = Raise e -> caught e = false ->
  get_all_boxes_loop (S fuel) i boxes = Some (Raise e).
Proof. intros H He. simpl. rewrite H. now destruct e. Qed.

Lemma loop_result (fuel : nat) :
  forall (i : nat) (boxes : list string) (r : result (list string)),
    get_all_boxes_loop fuel i boxes = Some r ->
    match r with
    | Ok out => exists rest, out = (boxes ++ rest)%list
    | Raise e => caught e = false
    end.
Proof.
  induction fuel as [|fuel IH]; intros i boxes r H; simpl in H; [discriminate|].
  destruct (parse_box_names (page_url i)) as [names|e] eqn:E.
  - apply IH in H. destruct r as [out|e]; [|exact H].
    destruct H as [rest ->]. exists (names ++ rest)%list. now rewrite app_assoc.
  - destruct e; inversion H; subst; try reflexivity;
      exists []; now rewrite app_nil_r.
Qed.

Lemma loop_endless (fuel : nat) :
  forall (i : nat) (boxes : list string),
    (forall j, i <= j -> exists names, parse_box_names (page_url j) = Ok names) ->
    get_all_boxes_loop fuel i boxes = None.
Proof.
  induction fuel as [|fuel IH]; intros i boxes H; simpl; [reflexivity|].
  destruct (H i (le_n i)) as [names ->].
  apply IH. intros j Hj. apply H. lia.
Qed.

End WalkerPages.

(** X1: when the base page and the pages 2 to n+1 parse and page n+2 ends
    the pagination (HTTP failure, no metadata block or empty product
    list), [get_all_boxes] returns the slugs of all the pages that
    parsed, in page order; n+1 turns of the loop are enough. *)
Theorem walker_concatenates_pages :
  forall (R : Runtime) (first : list string) (later : list (list string))
         (e : exn) (fuel : nat),
    parse_box_names url = Ok first ->
    (forall k names, nth_error later k = Some names ->
                     parse_box_names (page_url (2 + k)) = Ok names) ->
    listing_ends (page_url (2 + List.length later)) e ->
    List.length later < fuel ->
    get_all_boxes fuel = Some (Ok (first ++ List.concat later)%list).
Proof.
  intros R first later e fuel Hfirst Hlater Hend Hfuel.
  unfold get_all_boxes. rewrite Hfirst.
  replace fuel with (List.length later + S (fuel - S (List.length later))) by lia.
  rewrite loop_through by exact Hlater.
  now apply loop_stops with (e := e).
Qed.

Lemma walker_concatenates_pages_witness :
  @get_all_boxes Demo.runtime 7
  = Some (Ok (["hackerbox-0095-ai-camera"; "hackerbox-0041-circuit-breaker"]
              ++ List.concat [["hackerbox-0010-inventors-kit"]])%list).
Proof.
  apply (walker_concatenates_pages Demo.runtime _ _ HTTPError).
  - vm_compute. reflexivity.
  - intros [|[|k]] names H; simpl in H; inversion H; subst.
    vm_compute. reflexivity.
  - apply http_failure. exists (Demo.page 404 "Not Found").
    split; vm_compute; reflexivity.
  - simpl. lia.
Defined.

(** X2: an exception of a later page that is neither [HTTPError] nor
    [AssertionError] is not caught: [get_all_boxes] raises it, and the
    slugs of the pages before are not returned. *)
Theorem walker_raises_uncaught :
  forall (R : Runtime) (first : list string) (later : list (list string))
         (e : exn) (fuel : nat),
    parse_box_names url = Ok first ->
    (forall k names, nth_error later k = Some names ->
                     parse_box_names (page_url (2 + k)) = Ok names) ->
    parse_box_names (page_url (2 + List.length later)) = Raise e ->
    caught e = false ->
    List.length later < fuel ->
    get_all_boxes fuel = Some (Raise e).
Proof.
  intros R first later e fuel Hfirst Hlater Hraise He Hfuel.
  unfold get_all_boxes. rewrite Hfirst.
  replace fuel with (List.length later + S (fuel - S (List.length later))) by lia.
  rewrite loop_through by exact Hlater.
  now apply loop_uncaught.
Qed.

(** X3: as long as every page parses, the loop goes on: no number of turns
    makes [get_all_boxes] return. *)
Theorem walker_has_no_page_limit :
  forall (R : Runtime) (fuel : nat),
    (exists first, parse_box_names url = Ok first) ->
    (forall i, 2 <= i -> exists names, parse_box_names (page_url i) = Ok names) ->
    get_all_boxes fuel = None.
Proof.
  intros R fuel [first Hfirst] Hall. unfold get_all_boxes. rewrite Hfirst.
  now apply loop_endless.
Qed.

(** X4: whatever [get_all_boxes] returns starts with the slugs of the base
    page; and once the base page has parsed, it raises neither
    [HTTPError] nor [AssertionError]. *)
Theorem walker_result_shape :
  forall (R : Runtime) (fuel : nat) (first : list string)
         (r : result (list string)),
    parse_box_names url = Ok first ->
    get_all_boxes fuel = Some r ->
    match r with
    | Ok boxes => exists rest, boxes = (first ++ rest)%list
    | Raise e => caught e = false
    end.
Proof.
  intros R fuel first r Hfirst H. unfold get_all_boxes in H.
  rewrite Hfirst in H. now apply loop_result in H.
Qed.

Lemma walker_result_shape_witness :
  exists rest,
    ["hackerbox-0095-ai-camera"; "hackerbox-0041-circuit-breaker";
     "hackerbox-0010-inventors-kit"]
    = (["hackerbox-0095-ai-camera"; "hackerbox-0041-circuit-breaker"] ++ rest)%list.
Proof.
  apply (walker_result_shape Demo.runtime 5 _ (Ok _)); vm_compute; reflexivity.
Defined.

(** ** More on the catalog page parser and the name normalizer *)

Lemma box_names_each (items : list value) (names : list string) :
  box_names items = Ok names <->
  Forall2 (fun product name => box_name product = Ok name) items names.
Proof.
  revert names; induction items as [|p items IH]; intros names; simpl.
  - split; intros H; [inversion H; constructor | inversion H; reflexivity].
  - destruct (box_name p) as [n|e] eqn:E; simpl.
    + destruct (box_names items) as [ns|e'] eqn:E'; simpl.
      * split; intros H.
        -- inversion H; subst. constructor; [exact E | now apply IH].
        -- inversion H as [|? ? ? ? Hn Hns]; subst.
           rewrite E in Hn. inversion Hn; subst.
           apply IH in Hns. now inversion Hns.
      * split; intros H; [discriminate|].
        inversion H as [|? ? ? ? Hn Hns]; subst.
        apply IH in Hns. discriminate.
    + split; intros H; [discriminate|].
      inversion H as [|? ? ? ? Hn Hns]; subst. rewrite E in Hn. discriminate.
Qed.

(** X5: a listing page that parses carries a non-empty JSON list of
    products, and [parse_box_names] returns one slug for each product, in
    the order of the list. *)
Theorem parse_box_names_one_slug_per_product :
  forall (R : Runtime) (u : string) (names : list string),
    parse_box_names u = Ok names ->
    names <> []
    /\ exists (page : response) (g : string) (meta : value) (items : list value),
         session_get u = Ok page
         /\ search products_re (text page) = Some g
         /\ json_loads g = Ok meta
         /\ getitem_key meta "products" = Ok (VList items)
         /\ Forall2 (fun product name => box_name product = Ok name) items names.
Proof.
  intros R u names. unfold parse_box_names.
  destruct (session_get u) as [page|] eqn:Hpage; [|discriminate]. simpl.
  destruct (raise_for_status page) as [[]|]; [|discriminate]. simpl.
  destruct (search products_re (text page)) as [g|] eqn:Hsearch; [|discriminate].
  destruct (is_empty g); [discriminate|].
  destruct (json_loads g) as [meta|] eqn:Hloads; [|discriminate]. simpl.
  destruct (getitem_key meta "products") as [products|] eqn:Hp; [|discriminate].
  simpl. destruct (truthy products) eqn:Ht; [|discriminate].
  destruct products as [| b | z | s | items | d]; simpl; try discriminate.
  - destruct s as [|c s]; [discriminate|]. simpl. discriminate.
  - intros H. apply box_names_each in H. split.
    + destruct items; [discriminate|]. inversion H. discriminate.
    + exists page, g, meta, items. auto.
  - destruct d as [|[k v] d]; [discriminate|]. simpl. discriminate.
Qed.

Lemma parse_box_names_one_slug_per_product_witness :
  ["hackerbox-0095-ai-camera"; "hackerbox-0041-circuit-breaker"] <> []
  /\ exists (page : response) (g : string) (meta : value) (items : list value),
       @session_get Demo.runtime url = Ok page
       /\ search products_re (text page) = Some g
       /\ @json_loads Demo.runtime g = Ok meta
       /\ getitem_key meta "products" = Ok (VList items)
       /\ Forall2 (fun product name => box_name product = Ok name) items
            ["hackerbox-0095-ai-camera"; "hackerbox-0041-circuit-breaker"].
Proof.
  apply (parse_box_names_one_slug_per_product Demo.runtime url).
  vm_compute. reflexivity.
Defined.

Lemma exception_values (full_name mapped : string) :
  lookup full_name NAME_EXCEPTIONS = Some mapped ->
  strip_prefix "hackerbox-" mapped <> None
  /\ lookup mapped NAME_EXCEPTIONS = None.
Proof.
  intros H. unfold NAME_EXCEPTIONS in H at 1. cbn [lookup] in H.
  repeat match type of H with
         | context [String.eqb ?a ?b] => destruct (String.eqb a b)
         end;
    inversion H; subst; (split; vm_compute; [discriminate | reflexivity]).
Qed.

(** X6: the normalizer returns a slug exactly when the separator occurs
    after the prefix: with the separator it returns one, and a slug it
    returns comes from a label with the separator and starts with
    [hackerbox-]; the only exception it raises is [ValueError], and it
    raises it only without the separator. *)
Theorem normalize_name_outcomes :
  forall label : string,
    (occurs " - " (slice_from 11 label) ->
     exists slug, normalize_name label = Ok slug)
    /\ (forall slug, normalize_name label = Ok slug ->
                     occurs " - " (slice_from 11 label)
                     /\ strip_prefix "hackerbox-" slug <> None)
    /\ (forall e, normalize_name label = Raise e ->
                  e = ValueError /\ ~ occurs " - " (slice_from 11 label)).
Proof.
  intros label. unfold normalize_name, split1.
  destruct (find_first " - " (slice_from 11 label)) as [[number raw_name]|] eqn:F.
  - assert (Hoccurs : occurs " - " (slice_from 11 label)).
    { apply occurs_contains. unfold contains. now rewrite F. }
    split; [|split].
    + intros _. destruct (lookup _ NAME_EXCEPTIONS); eauto.
    + intros slug H. split; [exact Hoccurs|].
      destruct (lookup _ NAME_EXCEPTIONS) as [mapped|] eqn:E;
        inversion H; subst.
      * now apply exception_values in E.
      * cbn [append strip_prefix Ascii.eqb Bool.eqb]. discriminate.
    + intros e H. destruct (lookup _ NAME_EXCEPTIONS); discriminate.
  - assert (Hnone : ~ occurs " - " (slice_from 11 label)).
    { intros Ho. apply occurs_contains in Ho. unfold contains in Ho.
      rewrite F in Ho. discriminate. }
    split; [|split].
    + intros H. now elim Hnone.
    + intros slug H. discriminate.
    + intros e H. inversion H. auto.
Qed.

Lemma slice_from_append (p rest : string) :
  slice_from (String.length p) (p ++ rest) = rest.
Proof. induction p as [|c p IH]; simpl; [now destruct rest | exact IH]. Qed.

Lemma slice_from_short (n : nat) (s : string) :
  String.length s <= n -> slice_from n s = "".
Proof.
  revert s; induction n as [|n IH]; intros [|c s] H; simpl in *;
    try reflexivity; try lia.
  apply IH. lia.
Qed.

(** X7: the first 11 characters of the label are dropped without being
    looked at: any 11 characters in the place of [HackerBox #] give the
    same result; a label of at most 11 characters raises [ValueError]. *)
Theorem normalize_name_ignores_prefix :
  forall prefix rest short : string,
    String.length prefix = 11 ->
    String.length short <= 11 ->
    normalize_name (prefix ++ rest) = normalize_name ("HackerBox #" ++ rest)
    /\ normalize_name short = Raise ValueError.
Proof.
  intros prefix rest short H Hshort. split.
  - unfold normalize_name.
    rewrite <- H at 1. rewrite slice_from_append.
    change 11 with (String.length "HackerBox #"). now rewrite slice_from_append.
  - unfold normalize_name. rewrite slice_from_short by lia. reflexivity.
Qed.

Lemma normalize_name_ignores_prefix_witness :
  normalize_name ("Nothing at " ++ "0041 - Circuit Breaker")
  = normalize_name ("HackerBox #" ++ "0041 - Circuit Breaker")
  /\ normalize_name "HackerBox" = Raise ValueError.
Proof.
  apply (normalize_name_ignores_prefix "Nothing at " "0041 - Circuit Breaker"
           "HackerBox").
  - reflexivity.
  - simpl. lia.
Defined.

(** X8: no key of the exception table comes out of the normalizer. *)
Theorem normalize_name_never_returns_exception_key :
  forall label slug : string,
    normalize_name label = Ok slug ->
    lookup slug NAME_EXCEPTIONS = None.
Proof.
  intros label slug. unfold normalize_name.
  destruct (split1 " - " (slice_from 11 label)) as [|number [|raw_name [|]]];
    try discriminate.
  destruct (lookup _ NAME_EXCEPTIONS) as [mapped|] eqn:E; intros H;
    inversion H; subst.
  - now apply exception_values in E.
  - exact E.
Qed.

Lemma normalize_name_never_returns_exception_key_witness :
  lookup "hackerbox-0095-ai-camera" NAME_EXCEPTIONS = None.
Proof.
  apply (normalize_name_never_returns_exception_key
           "HackerBox #0095 - AI Camera Lab - Build a Vision System").
  vm_compute. reflexivity.
Defined.

Lemma isalnum_char_not_space (c : ascii) :
  isalnum_char c = true -> isspace c = false.
Proof. each_char c. Qed.

Lemma title_letter_lowers (c : ascii) :
  title_letter c = true -> slug_letter (lower_char c) = true.
Proof. each_char c. Qed.

Lemma split_ws_one_word (s word : string) :
  sforall (fun c => negb (isspace c)) s = true ->
  split_ws_from word s
  = if is_empty (word ++ s) then [] else [word ++ s].
Proof.
  revert word; induction s as [|c s IH]; intros word H; simpl in *.
  - now rewrite append_empty_r.
  - apply andb_prop in H as [Hc Hs].
    destruct (isspace c); [discriminate|].
    rewrite (IH _ Hs), append_assoc. reflexivity.
Qed.

Lemma split_ws_letters (P : ascii -> bool) (s word : string) :
  sforall P word = true ->
  sforall (fun c => isspace c || P c) s = true ->
  Forall (fun w => sforall P w = true) (split_ws_from word s).
Proof.
  revert word; induction s as [|c s IH]; intros word Hword Hs; simpl in *.
  - destruct (is_empty word); constructor; [exact Hword | constructor].
  - apply andb_prop in Hs as [Hc Hs].
    destruct (isspace c) eqn:E.
    + destruct (is_empty word); [now apply IH|].
      constructor; [exact Hword | now apply IH].
    + apply IH; [|exact Hs].
      rewrite sforall_append, Hword. simpl in *. now rewrite Hc.
Qed.

Lemma join_letters (P : ascii -> bool) (sep : string) (l : list string) :
  sforall P sep = true ->
  Forall (fun w => sforall P w = true) l ->
  sforall P (join sep l) = true.
Proof.
  intros Hsep. induction l as [|w l IH]; intros H; [reflexivity|].
  inversion H as [|? ? Hw Hl]; subst.
  destruct l as [|w' l]; [exact Hw|].
  change (join sep (w :: w' :: l)) with (w ++ sep ++ join sep (w' :: l)).
  now rewrite !sforall_append, Hw, Hsep, (IH Hl).
Qed.

Lemma sfilter_sforall (f : ascii -> bool) (s : string) :
  sforall f (sfilter f s) = true.
Proof.
  induction s as [|c s IH]; simpl; [reflexivity|].
  destruct (f c) eqn:E; simpl; [now rewrite E|exact IH].
Qed.

Lemma sforall_impl (f g : ascii -> bool) (s : string) :
  (forall c, f c = true -> g c = true) ->
  sforall f s = true -> sforall g s = true.
Proof.
  intros Hfg. induction s as [|c s IH]; simpl; [reflexivity|].
  intros H. apply andb_prop in H as [Hc Hs]. now rewrite (Hfg _ Hc), IH.
Qed.

Lemma sforall_smap (f : ascii -> ascii) (P Q : ascii -> bool) (s : string) :
  (forall c, P c = true -> Q (f c) = true) ->
  sforall P s = true -> sforall Q (smap f s) = true.
Proof.
  intros Hf. induction s as [|c s IH]; simpl; [reflexivity|].
  intros H. apply andb_prop in H as [Hc Hs]. now rewrite (Hf _ Hc), IH.
Qed.

(** X9: the slug is [hackerbox-], the number without the white space
    around it, a hyphen and a name, passed through the exception table.
    For a purely alphanumeric title the name is the title in lower case;
    for any other title it is made of the characters [a-z], [0-9] and
    [-] only. *)
Theorem normalize_name_cleans_title :
  forall label number raw_name : string,
    split1 " - " (slice_from 11 label) = [number; raw_name] ->
    exists name : string,
      normalize_name label
      = Ok (with_exceptions ("hackerbox-" ++ strip number ++ "-" ++ name))
      /\ (isalnum (hd raw_name (split1 " - " raw_name)) = true ->
          name = lower (hd raw_name (split1 " - " raw_name)))
      /\ (isalnum (hd raw_name (split1 " - " raw_name)) = false ->
          sforall slug_letter name = true).
Proof.
  intros label number raw_name Hsplit.
  unfold normalize_name. rewrite Hsplit.
  set (title := if contains " - " raw_name
                then hd raw_name (split1 " - " raw_name) else raw_name).
  assert (Ht : title = hd raw_name (split1 " - " raw_name)).
  { unfold title, contains, split1.
    destruct (find_first " - " raw_name) as [[x y]|]; reflexivity. }
  rewrite <- Ht. clearbody title.
  exists (lower (join "-" (split_ws (if negb (isalnum title)
                                     then sfilter slug_char title
                                     else title)))).
  split; [|split].
  - unfold with_exceptions. destruct (lookup _ NAME_EXCEPTIONS); reflexivity.
  - intros Halnum. rewrite Halnum. cbn [negb].
    unfold isalnum in Halnum. apply andb_prop in Halnum as [Hne Hall].
    unfold split_ws. rewrite split_ws_one_word.
    + cbn [append]. destruct title; [discriminate | reflexivity].
    + revert Hall. apply sforall_impl. intros c Hc.
      now rewrite (isalnum_char_not_space _ Hc).
  - intros Halnum. rewrite Halnum. cbn [negb]. unfold lower.
    apply sforall_smap with (P := title_letter); [exact title_letter_lowers|].
    apply join_letters; [reflexivity|].
    apply split_ws_letters; [reflexivity|].
    generalize (sfilter_sforall slug_char title). apply sforall_impl.
    intros c. unfold slug_char, title_letter.
    destruct (is_ascii_alnum c), (isspace c), (Ascii.eqb c hyphen); auto.
Qed.

Lemma normalize_name_cleans_title_witness :
  exists name : string,
    normalize_name "HackerBox #0010 - Inventor's Kit"
    = Ok (with_exceptions ("hackerbox-" ++ strip "0010" ++ "-" ++ name))
    /\ (isalnum (hd "Inventor's Kit" (split1 " - " "Inventor's Kit")) = true ->
        name = lower (hd "Inventor's Kit" (split1 " - " "Inventor's Kit")))
    /\ (isalnum (hd "Inventor's Kit" (split1 " - " "Inventor's Kit")) = false ->
        sforall slug_letter name = true).
Proof.
  apply (normalize_name_cleans_title "HackerBox #0010 - Inventor's Kit").
  vm_compute. reflexivity.
Defined.

(** ** More on the markdown table *)

Lemma row_strings_has_all (headers : list string) (row : dict) (cells : list string) :
  row_strings headers row cells ->
  MarkdownTable.has_all_headers headers row = true.
Proof.
  unfold row_strings, MarkdownTable.has_all_headers.
  induction 1 as [|h c hs cs Hh _ IH]; simpl; [reflexivity|].
  rewrite IH. unfold has_key. now rewrite Hh.
Qed.

Lemma row_cells_strings (headers : list string) (row : dict) (cells : list string) :
  row_strings headers row cells ->
  MarkdownTable.row_cells headers row = Ok (map VStr cells).
Proof.
  unfold row_strings.
  induction 1 as [|h c hs cs Hh _ IH]; simpl; [reflexivity|].
  now rewrite Hh, IH.
Qed.

Lemma strings_of_strs (cells : list string) :
  MarkdownTable.strings (map VStr cells) = Ok cells.
Proof. induction cells as [|c cs IH]; simpl; [reflexivity | now rewrite IH]. Qed.

Lemma check_rows_all {R : Runtime} (headers : list string) (rows : list dict) :
  forallb (MarkdownTable.has_all_headers headers) rows = true ->
  MarkdownTable.check_rows headers rows = Ok tt.
Proof.
  induction rows as [|row rows IH]; simpl; [reflexivity|].
  intros H. apply andb_prop in H as [Hrow Hrows]. now rewrite Hrow, IH.
Qed.

Lemma all_cells_strings (headers : list string) (rows : list dict)
      (texts : list (list string)) :
  Forall2 (row_strings headers) rows texts ->
  MarkdownTable.all_cells headers rows = Ok (map (map VStr) texts).
Proof.
  induction 1 as [|row cells rows texts Hrow _ IH]; simpl; [reflexivity|].
  now rewrite (row_cells_strings _ _ _ Hrow), IH.
Qed.

Lemma rows_text_strings (texts : list (list string)) :
  forall all_rows : string,
    MarkdownTable.rows_text all_rows (map (map VStr) texts)
    = Ok (all_rows ++ String.concat "" (map row_line texts)).
Proof.
  induction texts as [|cells texts IH]; intros all_rows.
  - simpl. now rewrite append_empty_r.
  - cbn [map MarkdownTable.rows_text]. rewrite strings_of_strs. cbn [bind].
    rewrite IH. f_equal. rewrite append_assoc. f_equal.
    cbn [String.concat]. destruct (map row_line texts) eqn:E.
    + now rewrite !append_empty_r.
    + reflexivity.
Qed.

(** The table of rows of strings. *)
Lemma render_strings :
  forall (R : Runtime) (headers : list string) (rows : list dict)
         (texts : list (list string)),
    Forall2 (row_strings headers) rows texts ->
    render headers rows
    = Ok ("| " ++ strip (join " | " headers) ++ " |" ++ nl
          ++ row_line (map (fun h => dashes (String.length h + 2)) headers)
          ++ String.concat "" (map row_line texts)).
Proof.
  intros R headers rows texts H.
  unfold render, MarkdownTable.init.
  rewrite check_rows_all.
  - cbn [bind]. unfold MarkdownTable.generate, MarkdownTable.make_rows.
    cbn [MarkdownTable.headers MarkdownTable.rows].
    rewrite (all_cells_strings _ _ _ H). cbn [bind].
    rewrite rows_text_strings. cbn [bind append].
    unfold MarkdownTable.make_headers, row_line.
    cbn [MarkdownTable.headers]. rewrite map_map.
    now rewrite !append_assoc.
  - clear R. induction H as [|row cells rows texts Hrow _ IH]; simpl; [reflexivity|].
    now rewrite (row_strings_has_all _ _ _ Hrow), IH.
Qed.

(** X10: when every row has a string under every header, building and
    generating the table succeed and give the header line, the line of
    dashes, and one line per row, in the order of the rows, with the
    cells in the order of the headers; other keys of a row are left
    out. *)
Theorem generate_lines :
  forall (R : Runtime) (headers : list string) (rows : list dict)
         (texts : list (list string)),
    Forall2 (row_strings headers) rows texts ->
    render headers rows
    = Ok ("| " ++ strip (join " | " headers) ++ " |" ++ nl
          ++ row_line (map (fun h => dashes (String.length h + 2)) headers)
          ++ String.concat "" (map row_line texts)).
Proof. exact render_strings. Qed.

Lemma generate_lines_witness :
  @render Demo.runtime ["b"; "a"]
    [ [("a", VStr "1"); ("b", VStr "2"); ("c", VStr "3")];
      [("b", VStr "4"); ("a", VStr "5")] ]
  = Ok ("| " ++ strip (join " | " ["b"; "a"]) ++ " |" ++ nl
        ++ row_line (map (fun h => dashes (String.length h + 2)) ["b"; "a"])
        ++ String.concat "" (map row_line [["2"; "1"]; ["4"; "5"]])).
Proof.
  apply (generate_lines Demo.runtime).
  repeat constructor.
Defined.

Lemma row_cells_present (headers : list string) (row : dict) :
  MarkdownTable.has_all_headers headers row = true ->
  exists cells, MarkdownTable.row_cells headers row = Ok cells.
Proof.
  unfold MarkdownTable.has_all_headers.
  induction headers as [|h hs IH]; simpl; [eauto|].
  intros H. apply andb_prop in H as [Hh Hhs].
  unfold has_key in Hh. destruct (lookup h row) as [v|]; [|discriminate].
  destruct (IH Hhs) as [cells ->]. simpl. eauto.
Qed.

Lemma all_cells_present (headers : list string) (rows : list dict) :
  forallb (MarkdownTable.has_all_headers headers) rows = true ->
  exists cells, MarkdownTable.all_cells headers rows = Ok cells.
Proof.
  induction rows as [|row rows IH]; simpl; [eauto|].
  intros H. apply andb_prop in H as [Hrow Hrows].
  destruct (row_cells_present _ _ Hrow) as [cells ->].
  destruct (IH Hrows) as [others ->]. simpl. eauto.
Qed.

Lemma strings_raises (cells : list value) (e : exn) :
  MarkdownTable.strings cells = Raise e -> e = TypeError.
Proof.
  induction cells as [|c cells IH]; simpl; [discriminate|].
  destruct c; try (intros H; inversion H; reflexivity).
  destruct (MarkdownTable.strings cells); simpl; [discriminate|].
  intros H. inversion H; subst. now apply IH.
Qed.

Lemma rows_text_raises (rows : list (list value)) :
  forall (all_rows : string) (e : exn),
    MarkdownTable.rows_text all_rows rows = Raise e -> e = TypeError.
Proof.
  induction rows as [|row rows IH]; intros all_rows e; simpl; [discriminate|].
  destruct (MarkdownTable.strings row) as [cells|e'] eqn:E; simpl.
  - apply IH.
  - intros H. inversion H; subst. now apply strings_raises in E.
Qed.

Lemma check_rows_ok {R : Runtime} (headers : list string) (rows : list dict) :
  MarkdownTable.check_rows headers rows = Ok tt ->
  forallb (MarkdownTable.has_all_headers headers) rows = true.
Proof.
  induction rows as [|row rows IH]; simpl; [reflexivity|].
  destruct (MarkdownTable.has_all_headers headers row); [exact IH | discriminate].
Qed.

(** X11: a table that was built keeps the headers and rows it was given,
    and [generate] on it never raises [KeyError]: the only exception it
    can raise is the [TypeError] of a cell that is not a string. *)
Theorem generate_after_init :
  forall (R : Runtime) (headers : list string) (rows : list dict)
         (table : MarkdownTable.t),
    MarkdownTable.init headers rows = Ok table ->
    MarkdownTable.headers table = headers
    /\ MarkdownTable.rows table = rows
    /\ forall e, MarkdownTable.generate table = Raise e -> e = TypeError.
Proof.
  intros R headers rows table. unfold MarkdownTable.init.
  destruct (MarkdownTable.check_rows headers rows) as [[]|] eqn:E; [|discriminate].
  simpl. intros H. inversion H; subst. simpl. repeat split.
  intros e. unfold MarkdownTable.generate, MarkdownTable.make_rows. simpl.
  destruct (all_cells_present _ _ (check_rows_ok _ _ E)) as [cells ->]. simpl.
  destruct (MarkdownTable.rows_text "" cells) eqn:Et; simpl; [discriminate|].
  intros He. inversion He; subst. now apply rows_text_raises in Et.
Qed.

Lemma generate_after_init_witness :
  MarkdownTable.headers
    {| MarkdownTable.headers := ["a"]; MarkdownTable.rows := [[("a", VList [])]] |}
  = ["a"]
  /\ MarkdownTable.rows
       {| MarkdownTable.headers := ["a"]; MarkdownTable.rows := [[("a", VList [])]] |}
     = [[("a", VList [])]]
  /\ forall e,
       MarkdownTable.generate
         {| MarkdownTable.headers := ["a"];
            MarkdownTable.rows := [[("a", VList [])]] |} = Raise e ->
       e = TypeError.
Proof.
  apply (generate_after_init Demo.runtime ["a"] [[("a", VList [])]]).
  reflexivity.
Defined.

Lemma length_dashes (n : nat) : String.length (dashes n) = n.
Proof. induction n as [|n IH]; simpl; [reflexivity | now rewrite IH]. Qed.

Lemma length_join_dashes (h : string) (hs : list string) :
  String.length (join " | " (map (fun h => dashes (String.length h + 2)) (h :: hs)))
  = String.length (join " | " (h :: hs)) + 2 * List.length (h :: hs).
Proof.
  revert h; induction hs as [|h' hs IH]; intros h.
  - simpl. rewrite length_dashes. lia.
  - change (join " | " (map (fun h => dashes (String.length h + 2)) (h :: h' :: hs)))
      with (dashes (String.length h + 2) ++ " | "
            ++ join " | " (map (fun h => dashes (String.length h + 2)) (h' :: hs))).
    change (join " | " (h :: h' :: hs)) with (h ++ " | " ++ join " | " (h' :: hs)).
    rewrite !length_append, length_dashes, IH. cbn [List.length]. lia.
Qed.

(** X12: the line of dashes is wider than the header line: when the
    joined headers have no white space at their two ends, it is longer by
    two characters for each column. *)
Theorem separator_wider_than_header :
  forall (headers : list string) (rows : list dict),
    headers <> [] ->
    strip (join " | " headers) = join " | " headers ->
    exists header_line separator_line : string,
      MarkdownTable.make_headers
        {| MarkdownTable.headers := headers; MarkdownTable.rows := rows |}
      = header_line ++ separator_line
      /\ header_line = row_line headers
      /\ String.length separator_line
         = String.length header_line + 2 * List.length headers.
Proof.
  intros headers rows Hne Hstrip.
  exists (row_line headers),
         (row_line (map (fun h => dashes (String.length h + 2)) headers)).
  split; [|split; [reflexivity|]].
  - unfold MarkdownTable.make_headers, row_line. cbn [MarkdownTable.headers].
    rewrite Hstrip, map_map. reflexivity.
  - destruct headers as [|h hs]; [now elim Hne|].
    unfold row_line. rewrite !length_append, length_join_dashes. lia.
Qed.

Lemma separator_wider_than_header_witness :
  exists header_line separator_line : string,
    MarkdownTable.make_headers
      {| MarkdownTable.headers := ["name"; "picture"; "contents"];
         MarkdownTable.rows := [] |}
    = header_line ++ separator_line
    /\ header_line = row_line ["name"; "picture"; "contents"]
    /\ String.length separator_line
       = String.length header_line + 2 * List.length ["name"; "picture"; "contents"].
Proof.
  apply (separator_wider_than_header ["name"; "picture"; "contents"] []).
  - discriminate.
  - vm_compute. reflexivity.
Defined.

(** ** What the patterns capture *)

Lemma match_lit_inv (l : string) (p : regex) (s g_open g_close : string)
      (r : matched) :
  match_here (Lit l :: p) s g_open g_close = Some r ->
  exists s', s = l ++ s' /\ match_here p s' g_open g_close = Some r.
Proof.
  cbn [match_here]. destruct (strip_prefix l s) as [s'|] eqn:E; [|discriminate].
  intros H. exists s'. split; [now apply strip_prefix_sound | exact H].
Qed.

(** A repetition that matched has passed over at least [least] characters
    of its class, and what follows it in the pattern matched after
    them. *)
Lemma match_rep_inv (greedy : bool) (cls : ascii -> bool) (p : regex)
      (g_open g_close : string) (r : matched) (s : string) :
  forall least : nat,
    match_here (Rep greedy least cls :: p) s g_open g_close = Some r ->
    exists u s',
      s = u ++ s' /\ least <= String.length u /\ sforall cls u = true
      /\ match_here p s' g_open g_close = Some r.
Proof.
  induction s as [|d s IH]; intros least; rewrite match_rep_unfold; cbv zeta.
  - destruct least; [|discriminate]. intros H. exists "", "". auto.
  - assert (Hstop : match least with
                    | 0 => match_here p (String d s) g_open g_close
                    | S _ => None
                    end = Some r ->
                    exists u s', String d s = u ++ s' /\ least <= String.length u
                                 /\ sforall cls u = true
                                 /\ match_here p s' g_open g_close = Some r).
    { destruct least; [|discriminate]. intros H. exists "", (String d s). auto. }
    assert (Hmore : (if cls d
                     then match_here (Rep greedy (pred least) cls :: p) s g_open g_close
                     else None) = Some r ->
                    exists u s', String d s = u ++ s' /\ least <= String.length u
                                 /\ sforall cls u = true
                                 /\ match_here p s' g_open g_close = Some r).
    { destruct (cls d) eqn:Ed; [|discriminate]. intros H.
      destruct (IH _ H) as (u & s' & -> & Hlen & Hcls & Hp).
      exists (String d u), s'. simpl. rewrite Ed, Hcls. repeat split; trivial. lia. }
    destruct greedy.
    + destruct (if cls d then _ else None) as [r'|] eqn:E.
      * intros H. inversion H; subst. now apply Hmore.
      * exact Hstop.
    + destruct (match least with 0 => _ | S _ => None end) as [r'|] eqn:E.
      * intros H. inversion H; subst. now apply Hstop.
      * exact Hmore.
Qed.

Lemma search_unfold (p : regex) (s : string) :
  search p s
  = match match_here p s "" "" with
    | Some (_, g_open, g_close) => Some (group_text g_open g_close)
    | None =>
        match s with
        | "" => None
        | String _ s' => search p s'
        end
    end.
Proof. destruct s; reflexivity. Qed.

(** The group that [search] returns is the group of a match at some place
    of the subject. *)
Lemma search_inv (p : regex) (s g : string) :
  search p s = Some g ->
  exists before s' rest g_open g_close,
    s = before ++ s'
    /\ match_here p s' "" "" = Some (rest, g_open, g_close)
    /\ g = group_text g_open g_close.
Proof.
  induction s as [|c s IH]; rewrite search_unfold.
  - destruct (match_here p "" "" "") as [[[rest go] gc]|] eqn:E; [|discriminate].
    intros H. inversion H. exists "", "", rest, go, gc. auto.
  - destruct (match_here p (String c s) "" "") as [[[rest go] gc]|] eqn:E.
    + intros H. inversion H. exists "", (String c s), rest, go, gc. auto.
    + intros H. destruct (IH H) as (before & s' & rest & go & gc & -> & Hm & Hg).
      exists (String c before), s', rest, go, gc. auto.
Qed.

Lemma group_text_prefix (x rest : string) : group_text (x ++ rest) rest = x.
Proof. unfold group_text. apply substring_prefix. Qed.

(** X17: the text that [parse_box_names] hands to the JSON decoder starts
    with the opening brace and the [products] key, ends with a closing
    brace, and stands in the page between [var meta = ] and a semicolon
    at the end of a line; it is never empty. *)
Theorem products_block_shape :
  forall s g : string,
    search products_re s = Some g ->
    exists before body rest : string,
      body <> ""
      /\ g = "{" ++ dquote ++ "products" ++ dquote ++ ":" ++ body ++ "}"
      /\ s = before ++ "var meta = " ++ g ++ ";" ++ nl ++ rest
      /\ is_empty g = false.
Proof.
  intros s g H.
  destruct (search_inv _ _ _ H) as (before & s' & rest & go & gc & -> & Hm & ->).
  unfold products_re in Hm.
  apply match_lit_inv in Hm as (s1 & -> & Hm). rewrite match_group_open in Hm.
  apply match_lit_inv in Hm as (s2 & Hs1 & Hm).
  apply match_rep_inv in Hm as (body & s3 & -> & Hlen & _ & Hm).
  apply match_lit_inv in Hm as (s4 & -> & Hm).
  change (match_here (GroupClose :: ?p) ?s ?go ?gc)
    with (match_here p s go s) in Hm.
  apply match_lit_inv in Hm as (s5 & -> & Hm).
  cbn [match_here] in Hm. inversion Hm; subst.
  exists before, body, rest.
  set (lit := "{" ++ dquote ++ "products" ++ dquote ++ ":") in *.
  replace (lit ++ body ++ "}" ++ (";" ++ nl) ++ rest)
    with ((lit ++ body ++ "}") ++ (";" ++ nl) ++ rest)
    by (now rewrite !append_assoc).
  rewrite group_text_prefix. split; [|split; [|split]].
  - intros ->. simpl in Hlen. lia.
  - unfold lit. now rewrite !append_assoc.
  - unfold lit. now rewrite !append_assoc.
  - reflexivity.
Qed.

Lemma products_block_shape_witness :
  exists before body rest : string,
    body <> ""
    /\ Demo.meta_json Demo.labels_2
       = "{" ++ dquote ++ "products" ++ dquote ++ ":" ++ body ++ "}"
    /\ text (Demo.listing_page Demo.labels_2)
       = before ++ "var meta = " ++ Demo.meta_json Demo.labels_2 ++ ";" ++ nl ++ rest
    /\ is_empty (Demo.meta_json Demo.labels_2) = false.
Proof.
  apply (products_block_shape (text (Demo.listing_page Demo.labels_2))).
  vm_compute. reflexivity.
Defined.

Lemma match_one_inv (cls : ascii -> bool) (p : regex) (s g_open g_close : string)
      (r : matched) :
  match_here (One cls :: p) s g_open g_close = Some r ->
  exists d s', s = String d s' /\ cls d = true
               /\ match_here p s' g_open g_close = Some r.
Proof.
  cbn [match_here]. destruct s as [|d s']; [discriminate|].
  destruct (cls d) eqn:E; [|discriminate]. intros H. exists d, s'. auto.
Qed.

Lemma match_group_close (p : regex) (s g_open g_close : string) :
  match_here (GroupClose :: p) s g_open g_close = match_here p s g_open s.
Proof. reflexivity. Qed.

(** What a match of the product pattern has read. *)
Lemma product_re_inv :
  forall s g : string,
    search product_re s = Some g ->
    exists (before gap body gap' : string) (c : ascii) (rest : string),
      body <> "" /\ g = "{" ++ body ++ "}"
      /\ gap <> "" /\ sforall isspace gap = true
      /\ gap' <> "" /\ sforall isspace gap' = true /\ isspace c = true
      /\ s = before ++ ("ProductJson-product-template" ++ dquote ++ ">")
             ++ gap ++ g ++ nl ++ gap' ++ "</script>" ++ String c rest.
Proof.
  intros s g H.
  destruct (search_inv _ _ _ H) as (before & s' & rest & go & gc & -> & Hm & ->).
  unfold product_re in Hm.
  apply match_lit_inv in Hm as (s1 & -> & Hm).
  apply match_rep_inv in Hm as (gap & s2 & -> & Hgap & Hgap_ws & Hm).
  rewrite match_group_open in Hm.
  apply match_lit_inv in Hm as (s3 & Hs2 & Hm).
  apply match_rep_inv in Hm as (body & s4 & -> & Hbody & _ & Hm).
  apply match_lit_inv in Hm as (s5 & -> & Hm).
  rewrite match_group_close in Hm.
  apply match_lit_inv in Hm as (s6 & Hs5 & Hm).
  apply match_rep_inv in Hm as (gap' & s7 & -> & Hgap' & Hgap'_ws & Hm).
  apply match_lit_inv in Hm as (s8 & -> & Hm).
  apply match_one_inv in Hm as (c & s9 & -> & Hc & Hm).
  cbn [match_here] in Hm. inversion Hm; subst.
  exists before, gap, body, gap', c, rest.
  replace ("{" ++ body ++ "}" ++ nl ++ gap' ++ "</script>" ++ String c rest)
    with (("{" ++ body ++ "}") ++ nl ++ gap' ++ "</script>" ++ String c rest)
    by (now rewrite !append_assoc).
  rewrite group_text_prefix.
  repeat match goal with |- _ /\ _ => split end; trivial;
    try (intros ->; simpl in *; lia).
Qed.

(** X18: the text that [get_box_contents] hands to the JSON decoder is
    enclosed in braces and not empty between them; in the page it comes
    after the product-template marker and white space, and before a
    newline, white space and the closing script tag. *)
Theorem product_block_shape :
  forall s g : string,
    search product_re s = Some g ->
    exists (before gap body gap' : string) (c : ascii) (rest : string),
      body <> "" /\ g = "{" ++ body ++ "}"
      /\ gap <> "" /\ sforall isspace gap = true
      /\ gap' <> "" /\ sforall isspace gap' = true /\ isspace c = true
      /\ s = before ++ ("ProductJson-product-template" ++ dquote ++ ">")
             ++ gap ++ g ++ nl ++ gap' ++ "</script>" ++ String c rest.
Proof. exact product_re_inv. Qed.

Lemma product_block_shape_witness :
  exists (before gap body gap' : string) (c : ascii) (rest : string),
    body <> "" /\ Demo.json_0095 = "{" ++ body ++ "}"
    /\ gap <> "" /\ sforall isspace gap = true
    /\ gap' <> "" /\ sforall isspace gap' = true /\ isspace c = true
    /\ text (Demo.detail_page Demo.json_0095)
       = before ++ ("ProductJson-product-template" ++ dquote ++ ">")
         ++ gap ++ Demo.json_0095 ++ nl ++ gap' ++ "</script>" ++ String c rest.
Proof.
  apply (product_block_shape (text (Demo.detail_page Demo.json_0095))).
  vm_compute. reflexivity.
Defined.

Lemma li_closing_inv_full (s g_open g_close : string) (r : matched) :
  match_here [GroupClose; Lit "<"; Opt backslash; Lit ("/li>" ++ nl)]
    s g_open g_close = Some r ->
  exists (e : bool) (rest : string),
    s = closing e ++ nl ++ rest /\ r = (rest, g_open, s).
Proof.
  rewrite match_group_close. intros H.
  apply match_lit_inv in H as (s1 & -> & H).
  assert (Hplain : match_here [Lit ("/li>" ++ nl)] s1 g_open ("<" ++ s1) = Some r ->
                   exists (e : bool) (rest : string),
                     "<" ++ s1 = closing e ++ nl ++ rest
                     /\ r = (rest, g_open, "<" ++ s1)).
  { intros Hp. apply match_lit_inv in Hp as (rest & -> & Hp).
    cbn [match_here] in Hp. inversion Hp. exists false, rest. auto. }
  cbn [match_here] in H. destruct s1 as [|d s2]; [discriminate|].
  destruct (Ascii.eqb_spec backslash d) as [<-|Hd].
  - destruct (strip_prefix ("/li>" ++ nl) s2) as [rest|] eqn:E.
    + apply strip_prefix_sound in E. subst s2. inversion H.
      exists true, rest. auto.
    + apply Hplain. cbn [match_here]. exact H.
  - apply Hplain. cbn [match_here]. exact H.
Qed.

(** What a match of the item pattern has read. *)
Lemma li_re_inv (s rest g_open g_close : string) :
  match_here li_re s "" "" = Some (rest, g_open, g_close) ->
  exists (attrs b : string) (e : bool),
    s = nl ++ "<li" ++ attrs ++ ">" ++ b ++ closing e ++ nl ++ rest
    /\ group_text g_open g_close = b
    /\ b <> "" /\ no_newline b = true.
Proof.
  unfold li_re. intros H.
  apply match_lit_inv in H as (s1 & -> & H).
  apply match_rep_inv in H as (attrs & s2 & -> & _ & _ & H).
  apply match_lit_inv in H as (s3 & -> & H).
  rewrite match_group_open in H.
  apply match_rep_inv in H as (b & s4 & Hs3 & Hlen & Hb & H).
  apply li_closing_inv_full in H as (e & rest' & -> & Hr).
  inversion Hr; subst.
  exists attrs, b, e. split; [|split; [|split]].
  - now rewrite !append_assoc.
  - apply group_text_prefix.
  - intros ->. simpl in Hlen. lia.
  - exact Hb.
Qed.

Lemma findall_from_inv (p : regex) (b : string) (s : string) :
  forall skip : nat,
    In b (findall_from p skip s) ->
    exists before s' rest g_open g_close,
      s = before ++ s'
      /\ match_here p s' "" "" = Some (rest, g_open, g_close)
      /\ b = group_text g_open g_close.
Proof.
  induction s as [|c s IH]; intros skip H.
  - destruct skip; [|now elim H]. rewrite findall_from_unfold in H.
    destruct (match_here p "" "" "") as [[[rest go] gc]|] eqn:E; [|now elim H].
    destruct H as [<- | []]. exists "", "", rest, go, gc. auto.
  - assert (Hlater : forall k, In b (findall_from p k s) ->
              exists before s' rest g_open g_close,
                String c s = before ++ s'
                /\ match_here p s' "" "" = Some (rest, g_open, g_close)
                /\ b = group_text g_open g_close).
    { intros k Hk. destruct (IH _ Hk) as (before & s' & rest & go & gc & -> & Hm & Hb).
      exists (String c before), s', rest, go, gc. auto. }
    destruct skip; [|now apply (Hlater skip)].
    rewrite findall_from_unfold in H.
    destruct (match_here p (String c s) "" "") as [[[rest go] gc]|] eqn:E.
    + destruct H as [<- | H]; [|now apply Hlater in H].
      exists "", (String c s), rest, go, gc. auto.
    + now apply Hlater in H.
Qed.

(** Every bullet is the text of an element of the description. *)
Lemma findall_li_bullets (description b : string) :
  In b (findall li_re description) ->
  b <> "" /\ no_newline b = true
  /\ exists e, occurs (">" ++ b ++ closing e ++ nl) description.
Proof.
  intros H. apply findall_from_inv in H
    as (before & s' & rest & go & gc & -> & Hm & ->).
  apply li_re_inv in Hm as (attrs & b & e & -> & -> & Hne & Hnl).
  repeat split; trivial. exists e, (before ++ nl ++ "<li" ++ attrs), rest.
  now rewrite !append_assoc.
Qed.

(** ** More on the item detail parser and the aggregator *)

Section Aggregator.
Context {R : Runtime}.

Lemma get_box_contents_effect (name : string) (w w' : world)
      (r : result (dict * dict)) :
  get_box_contents name w = (r, w') ->
  match r with
  | Raise _ => w' = w
  | Ok _ =>
      exists data : string,
        files w' = (path_div ASSETS (name ++ ".png"), data) :: files w
        /\ stdout w'
           = ("File written to: " ++ path_str (path_div ASSETS (name ++ ".png")))
               :: stdout w
  end.
Proof.
  unfold get_box_contents. intros H.
  destruct (session_get _) as [page|]; [|now inversion H].
  destruct (search product_re _) as [g|]; [|now inversion H].
  destruct (is_empty _); [now inversion H|].
  destruct (json_loads _) as [product|]; [|now inversion H].
  destruct (getitem_key product "description") as [description|]; [|now inversion H].
  destruct (negb (truthy description)); [now inversion H|].
  destruct description as [| | |d| |]; try (now inversion H).
  destruct (f <- getitem_key product "featured_image";; getslice_from f 2);
    [|now inversion H].
  destruct (requests_get _) as [picture|]; [|now inversion H].
  inversion H; subst. exists (content picture). split; reflexivity.
Qed.

(** The rows of a successful call: the three columns, each a string, in
    the table row; the slug as the name of the JSON row. *)
Lemma get_box_contents_columns (name : string) (w w' : world) (t j : dict) :
  get_box_contents name w = (Ok (t, j), w') ->
  (exists cells, row_strings columns t cells)
  /\ lookup "name" j = Some (VStr name).
Proof.
  unfold get_box_contents. intros H.
  destruct (session_get _) as [page|]; [|inversion H].
  destruct (search product_re _) as [g|]; [|inversion H].
  destruct (is_empty _); [inversion H|].
  destruct (json_loads _) as [product|]; [|inversion H].
  destruct (getitem_key product "description") as [description|]; [|inversion H].
  destruct (negb (truthy description)); [inversion H|].
  destruct description as [| | |d| |]; try (inversion H; fail).
  destruct (f <- getitem_key product "featured_image";; getslice_from f 2);
    [|inversion H].
  destruct (requests_get _); [|inversion H].
  inversion H; subst. split; [|reflexivity].
  eexists. unfold row_strings, columns. repeat constructor.
Qed.

(** What the loop of [get_all_box_contents] keeps true. *)
Lemma box_contents_loop_result (names : list string) :
  forall (ts js : list dict) (w w' : world) (ts' js' : list dict),
    box_contents_loop names ts js w = (Ok (ts', js'), w') ->
    (exists new_ts new_js,
        ts' = (ts ++ new_ts)%list /\ js' = (js ++ new_js)%list
        /\ List.length new_ts = List.length names
        /\ map (lookup "name") new_js = map (fun n => Some (VStr n)) names
        /\ Forall (fun t => exists cells, row_strings columns t cells) new_ts)
    /\ List.length (files w') = List.length names + List.length (files w).
Proof.
  induction names as [|name names IH]; intros ts js w w' ts' js' H; simpl in H.
  - inversion H; subst. split; [|reflexivity].
    exists [], []. rewrite !app_nil_r. repeat split. constructor.
  - destruct (get_box_contents name w) as [[[t j]|e] w1] eqn:E; [|discriminate].
    destruct (get_box_contents_columns _ _ _ _ _ E) as [Ht Hj].
    pose proof (get_box_contents_effect _ _ _ _ E) as (data & Hfiles & _).
    apply IH in H as [(new_ts & new_js & -> & -> & Hlen & Hnames & Hall) Hw].
    split.
    + exists (t :: new_ts), (j :: new_js).
      rewrite <- !app_assoc. simpl. rewrite Hlen, Hnames, Hj.
      repeat split. now constructor.
    + rewrite Hw, Hfiles. simpl. lia.
Qed.

Lemma box_contents_loop_fails (before : list string) :
  forall (bad : string) (after : list string) (e : exn)
         (ts js : list dict) (w : world),
    (forall name w0, In name before ->
                     exists rows, fst (get_box_contents name w0) = Ok rows) ->
    (forall w0, fst (get_box_contents bad w0) = Raise e) ->
    exists w',
      box_contents_loop (before ++ bad :: after) ts js w = (Raise e, w')
      /\ List.length (files w') = List.length before + List.length (files w).
Proof.
  induction before as [|name before IH]; intros bad after e ts js w Hbefore Hbad.
  - simpl. specialize (Hbad w).
    destruct (get_box_contents bad w) as [[[t j]|e'] w1] eqn:E; simpl in Hbad;
      [discriminate|].
    inversion Hbad; subst. exists w1. split; [reflexivity|].
    now rewrite (get_box_contents_effect _ _ _ _ E).
  - cbn [app box_contents_loop].
    destruct (Hbefore name w (or_introl eq_refl)) as [[t j] Hrows].
    destruct (get_box_contents name w) as [r w1] eqn:E. simpl in Hrows. subst r.
    pose proof (get_box_contents_effect _ _ _ _ E) as (data & Hfiles & _).
    destruct (IH bad after e (ts ++ [t])%list (js ++ [j])%list w1) as (w' & -> & Hw').
    + intros n w0 Hn. apply Hbefore. now right.
    + exact Hbad.
    + exists w'. split; [reflexivity|]. rewrite Hw', Hfiles. simpl. lia.
Qed.

End Aggregator.

(** X13: a call of [get_box_contents] that raises has written no file and
    printed nothing; a call that returns has written exactly one file,
    named after the slug, and printed one line. *)
Theorem get_box_contents_writes_on_success_only :
  forall (R : Runtime) (name : string) (w w' : world)
         (r : result (dict * dict)),
    get_box_contents name w = (r, w') ->
    match r with
    | Raise _ => w' = w
    | Ok _ =>
        exists data : string,
          files w' = (path_div ASSETS (name ++ ".png"), data) :: files w
          /\ stdout w'
             = ("File written to: "
                ++ path_str (path_div ASSETS (name ++ ".png"))) :: stdout w
    end.
Proof. intros R. exact get_box_contents_effect. Qed.

Lemma get_box_contents_writes_on_success_only_witness :
  Demo.world_after "hackerbox-0011-missing" = Demo.empty_world.
Proof.
  apply (get_box_contents_writes_on_success_only Demo.runtime
           "hackerbox-0011-missing" Demo.empty_world
           (Demo.world_after "hackerbox-0011-missing") (Raise RequestException)).
  vm_compute. reflexivity.
Defined.

(** X14: when [get_all_box_contents] returns, it returns one table row
    and one JSON row per slug of [get_all_boxes], the JSON rows named by
    the slugs in their order, and it has written one file per slug. *)
Theorem aggregator_one_row_per_slug :
  forall (R : Runtime) (fuel : nat) (w w' : world) (ts js : list dict),
    get_all_box_contents fuel w = Some (Ok (ts, js), w') ->
    exists names : list string,
      get_all_boxes fuel = Some (Ok names)
      /\ List.length ts = List.length names
      /\ map (lookup "name") js = map (fun n => Some (VStr n)) names
      /\ List.length (files w') = List.length names + List.length (files w).
Proof.
  intros R fuel w w' ts js. unfold get_all_box_contents.
  destruct (get_all_boxes fuel) as [[names|e]|]; try discriminate.
  intros H. inversion H as [H'].
  apply box_contents_loop_result in H'
    as [(new_ts & new_js & -> & -> & Hlen & Hnames & _) Hw].
  exists names. simpl. auto.
Qed.

Lemma aggregator_one_row_per_slug_witness :
  exists names : list string,
    @get_all_boxes Demo.runtime 3 = Some (Ok names)
    /\ List.length (map Demo.table_row names) = List.length names
    /\ map (lookup "name") (map Demo.json_row names)
       = map (fun n => Some (VStr n)) names
    /\ List.length
         (files (snd (box_contents_loop (R := Demo.runtime) names [] []
                        Demo.empty_world)))
       = List.length names + List.length (files Demo.empty_world).
Proof.
  destruct (aggregator_one_row_per_slug Demo.runtime 3 Demo.empty_world
              (snd (box_contents_loop (R := Demo.runtime)
                      ["hackerbox-0095-ai-camera"; "hackerbox-0041-circuit-breaker";
                       "hackerbox-0010-inventors-kit"] [] [] Demo.empty_world))
              (map Demo.table_row
                 ["hackerbox-0095-ai-camera"; "hackerbox-0041-circuit-breaker";
                  "hackerbox-0010-inventors-kit"])
              (map Demo.json_row
                 ["hackerbox-0095-ai-camera"; "hackerbox-0041-circuit-breaker";
                  "hackerbox-0010-inventors-kit"]))
    as (names & Hnames & H).
  - vm_compute. reflexivity.
  - exists names. split; [exact Hnames|].
    vm_compute in Hnames. inversion Hnames; subst names. exact H.
Defined.

(** X15: when the call for one slug raises for the first time, the
    aggregation raises that exception and returns no row, while the files
    of the slugs before it stay written. *)
Theorem aggregator_stops_at_first_failure :
  forall (R : Runtime) (fuel : nat) (w : world)
         (before : list string) (bad : string) (after : list string) (e : exn),
    get_all_boxes fuel = Some (Ok (before ++ bad :: after)%list) ->
    (forall name w0, In name before ->
                     exists rows, fst (get_box_contents name w0) = Ok rows) ->
    (forall w0, fst (get_box_contents bad w0) = Raise e) ->
    exists w',
      get_all_box_contents fuel w = Some (Raise e, w')
      /\ List.length (files w') = List.length before + List.length (files w).
Proof.
  intros R fuel w before bad after e Hnames Hbefore Hbad.
  unfold get_all_box_contents. rewrite Hnames.
  destruct (box_contents_loop_fails before bad after e [] [] w Hbefore Hbad)
    as (w' & -> & Hw').
  exists w'. auto.
Qed.

(** X16: the table rows of the aggregation always fit the three columns
    of the entry point: once [get_all_box_contents] has returned, building
    the table and generating it do not fail, and [main] prints the table
    and then the JSON rows. *)
Theorem main_prints_table_and_json :
  forall (R : Runtime) (fuel : nat) (w w' : world) (ts js : list dict),
    get_all_box_contents fuel w = Some (Ok (ts, js), w') ->
    exists generated : string,
      render columns ts = Ok generated
      /\ main fuel w
         = Some (Ok tt,
                 print (json_dumps (VList (map VDict js))) (print generated w')).
Proof.
  intros R fuel w w' ts js H.
  assert (Hrows : exists texts, Forall2 (row_strings columns) ts texts).
  { unfold get_all_box_contents in H.
    destruct (get_all_boxes fuel) as [[names|e]|]; try discriminate.
    inversion H as [H'].
    apply box_contents_loop_result in H'
      as [(new_ts & new_js & -> & _ & _ & _ & Hall) _].
    simpl. clear -Hall. induction Hall as [|t ts [cells Ht] _ [texts IH]].
    - exists []. constructor.
    - exists (cells :: texts). now constructor. }
  destruct Hrows as [texts Hrows].
  pose proof (render_strings R columns ts texts Hrows) as Hrender.
  eexists. split; [exact Hrender|].
  unfold main. rewrite H. unfold render in Hrender. fold columns.
  destruct (MarkdownTable.init columns ts) as [table|]; [|discriminate].
  cbn [bind] in Hrender. now rewrite Hrender.
Qed.

Lemma main_prints_table_and_json_witness :
  exists generated : string,
    @render Demo.runtime columns
      (map Demo.table_row
         ["hackerbox-0095-ai-camera"; "hackerbox-0041-circuit-breaker";
          "hackerbox-0010-inventors-kit"])
    = Ok generated
    /\ @main Demo.runtime 3 Demo.empty_world
       = Some (Ok tt,
               @print Demo.runtime
                 (Demo.repr
                    (VList (map VDict
                       (map Demo.json_row
                          ["hackerbox-0095-ai-camera";
                           "hackerbox-0041-circuit-breaker";
                           "hackerbox-0010-inventors-kit"]))))
                 (@print Demo.runtime generated
                    (snd (box_contents_loop (R := Demo.runtime)
                            ["hackerbox-0095-ai-camera";
                             "hackerbox-0041-circuit-breaker";
                             "hackerbox-0010-inventors-kit"] [] []
                            Demo.empty_world)))).
Proof.
  apply (main_prints_table_and_json Demo.runtime 3 Demo.empty_world).
  vm_compute. reflexivity.
Defined.

Lemma walker_raises_uncaught_witness :
  @get_all_boxes Cases.runtime_unseparated 1 = Some (Raise ValueError).
Proof.
  apply (walker_raises_uncaught Cases.runtime_unseparated
           ["hackerbox-0095-ai-camera"; "hackerbox-0041-circuit-breaker"] []).
  - vm_compute. reflexivity.
  - intros [|k] names H; discriminate H.
  - vm_compute. reflexivity.
  - reflexivity.
  - simpl. lia.
Defined.

Lemma walker_has_no_page_limit_witness :
  @get_all_boxes Cases.runtime_endless 40 = None.
Proof.
  apply (walker_has_no_page_limit Cases.runtime_endless 40).
  - exists ["hackerbox-0010-inventors-kit"]. vm_compute. reflexivity.
  - intros i _. exists ["hackerbox-0010-inventors-kit"]. vm_compute. reflexivity.
Defined.

Lemma aggregator_stops_at_first_failure_witness :
  exists w',
    @get_all_box_contents (Demo.runtime_of Cases.web_one_missing) 3
      (Cases.nothing_written _)
    = Some (Raise (AssertionError
                     (Some "no contents json found for: hackerbox-0041-circuit-breaker!")),
            w')
    /\ List.length (files w')
       = List.length ["hackerbox-0095-ai-camera"]
         + List.length (files (Cases.nothing_written
                                 (Demo.runtime_of Cases.web_one_missing))).
Proof.
  apply (aggregator_stops_at_first_failure (Demo.runtime_of Cases.web_one_missing)
           3 (Cases.nothing_written _) ["hackerbox-0095-ai-camera"]
           "hackerbox-0041-circuit-breaker" []).
  - vm_compute. reflexivity.
  - intros name w0 [<- | []].
    exists (Demo.table_row "hackerbox-0095-ai-camera",
            Demo.json_row "hackerbox-0095-ai-camera").
    vm_compute. reflexivity.
  - intros w0. vm_compute. reflexivity.
Defined.

(** X19: every bullet of the JSON row is the text of an [<li>] element of
    the product's description: it is not empty, has no newline, and
    stands in the description between a [>] and a closing tag at the end
    of a line. *)
Theorem bullets_are_element_texts :
  forall (R : Runtime) (name : string) (w w' : world) (t j : dict),
    get_box_contents name w = (Ok (t, j), w') ->
    exists (page : response) (g : string) (product : value)
           (description : string) (bullets : list string),
      session_get (url ++ "/products/" ++ name) = Ok page
      /\ search product_re (text page) = Some g
      /\ json_loads g = Ok product
      /\ getitem_key product "description" = Ok (VStr description)
      /\ lookup "contents" j = Some (VList (map VStr bullets))
      /\ Forall (fun b => b <> "" /\ no_newline b = true
                          /\ exists e, occurs (">" ++ b ++ closing e ++ nl)
                                         description) bullets.
Proof.
  intros R name w w' t j H.
  destruct (get_box_contents_rows _ _ _ _ _ H)
    as (page & g & product & d & Hpage & Hsearch & Hloads & Hd & _ & Hj).
  exists page, g, product, d, (findall li_re d).
  repeat match goal with |- _ /\ _ => split end; trivial.
  apply Forall_forall. intros b Hb. now apply findall_li_bullets.
Qed.

Lemma bullets_are_element_texts_witness :
  exists (page : response) (g : string) (product : value)
         (description : string) (bullets : list string),
    @session_get Demo.runtime (url ++ "/products/" ++ "hackerbox-0010-inventors-kit")
    = Ok page
    /\ search product_re (text page) = Some g
    /\ @json_loads Demo.runtime g = Ok product
    /\ getitem_key product "description" = Ok (VStr description)
    /\ lookup "contents" (Demo.json_row "hackerbox-0010-inventors-kit")
       = Some (VList (map VStr bullets))
    /\ Forall (fun b => b <> "" /\ no_newline b = true
                        /\ exists e, occurs (">" ++ b ++ closing e ++ nl)
                                       description) bullets.
Proof.
  apply (bullets_are_element_texts Demo.runtime "hackerbox-0010-inventors-kit"
           Demo.empty_world (Demo.world_after "hackerbox-0010-inventors-kit")
           (Demo.table_row "hackerbox-0010-inventors-kit")).
  vm_compute. reflexivity.
Defined.

(** X20: a description in which no newline is directly followed by [<li]
    gives no bullet; the call does not fail for that: it returns the empty
    list in the JSON row and [<ul></ul>] in the table row, and writes the
    image. *)
Theorem no_item_lines_no_bullets :
  forall (R : Runtime) (name : string) (w : world) (page : response)
         (g : string) (product : value) (d image : string) (picture : response),
    session_get (url ++ "/products/" ++ name) = Ok page ->
    search product_re (text page) = Some g ->
    json_loads g = Ok product ->
    getitem_key product "description" = Ok (VStr d) ->
    is_empty d = false ->
    contains (nl ++ "<li") d = false ->
    getitem_key product "featured_image" = Ok (VStr image) ->
    requests_get ("https://" ++ slice_from 2 image) = Ok picture ->
    exists (t j : dict) (w' : world),
      get_box_contents name w = (Ok (t, j), w')
      /\ lookup "contents" t = Some (VStr "<ul></ul>")
      /\ lookup "contents" j = Some (VList [])
      /\ files w' = (path_div ASSETS (name ++ ".png"), content picture) :: files w.
Proof.
  intros R name w page g product d image picture
         Hget Hsearch Hloads Hdesc Hd Hcontains Himage Hpicture.
  assert (Hfind : findall li_re d = []).
  { unfold findall. rewrite <- (append_empty_r d).
    rewrite findall_gap; [reflexivity | exact Hcontains | now left]. }
  assert (Hg : is_empty g = false).
  { destruct (product_re_inv _ _ Hsearch) as (_ & _ & body & _ & _ & _ & _ & -> & _).
    reflexivity. }
  unfold get_box_contents.
  rewrite Hget, Hsearch, Hg, Hloads, Hdesc. cbn [truthy]. rewrite Hd.
  cbn [negb]. rewrite Hfind, Himage. cbn [bind getslice_from format_value].
  rewrite Hpicture. do 3 eexists. split; [reflexivity|].
  repeat split.
Qed.

Lemma no_item_lines_no_bullets_witness :
  exists (t j : dict) (w' : world),
    @get_box_contents Cases.runtime_plain "hackerbox-0001-plain"
      (Cases.nothing_written _)
    = (Ok (t, j), w')
    /\ lookup "contents" t = Some (VStr "<ul></ul>")
    /\ lookup "contents" j = Some (VList [])
    /\ files w'
       = (@path_div Cases.runtime_plain (@ASSETS Cases.runtime_plain)
            ("hackerbox-0001-plain" ++ ".png"),
          content (Demo.page 200 "PNG-plain"))
         :: files (Cases.nothing_written Cases.runtime_plain).
Proof.
  apply (no_item_lines_no_bullets Cases.runtime_plain "hackerbox-0001-plain"
           (Cases.nothing_written _) (Demo.detail_page Cases.json_plain)
           Cases.json_plain
           (Demo.product_value Cases.description_plain "//cdn.example.com/plain.png")
           Cases.description_plain "//cdn.example.com/plain.png"
           (Demo.page 200 "PNG-plain"));
    vm_compute; reflexivity.
Defined.
